(** * A model of the chat window of [src/main.py]

    The program is a PySide6 desktop chat client.  Everything that decides
    what the user sees lives in two classes: [ChatMessageWidget], which
    renders one message under a theme, and [ModernChatWindow], which owns
    the message log, the active theme, the composer and the slots wired to
    the buttons, the menu, the one-shot timer and the key filter.

    Python values are embedded as follows.
    - [str] is a list of Unicode code points ([list N]).
    - [dict] is a [gmap]; a missing key raises [KeyError].
    - the three [Theme] objects are mutable heap objects reached through
      the class attributes [Themes.DARK], [Themes.LIGHT], [Themes.NORD];
      the window and every widget hold references to them.
    - a method of the window is a state transformer that may raise; what
      it changed before raising stays changed.
    - what the environment answers (the clock, the random generator, the
      file dialogs, the keyboard) is an argument of the event.
    - a widget is the record of what its constructor set: texts, style
      sheets, word wrap, pixmap; the box layout of the message area is the
      list of its items.

    The contact list, the menu bar and the splitter are built once by
    [setup_ui] and never read by the methods below; they are left out.
    The delay of the one-shot timer is not measured: a pending shot fires
    at some later turn of the event loop. *)

From Stdlib Require Import NArith ZArith String Ascii Lia.
From stdpp Require Import base option list gmap.

Open Scope N_scope.

(** ** Python strings *)

Abbreviation pystr := (list N).

Module Str.

(** Literals are written as in the Python file, which is UTF-8 encoded:
    [py] decodes the bytes of a literal to code points. *)
Fixpoint utf8_decode (bs : list N) : pystr :=
  match bs with
  | [] => []
  | b :: r =>
    if b <? 128 then b :: utf8_decode r
    else if b <? 224 then
      match r with
      | b1 :: r1 => ((b - 192) * 64 + (b1 - 128)) :: utf8_decode r1
      | _ => []
      end
    else if b <? 240 then
      match r with
      | b1 :: b2 :: r2 =>
        ((b - 224) * 4096 + (b1 - 128) * 64 + (b2 - 128)) :: utf8_decode r2
      | _ => []
      end
    else
      match r with
      | b1 :: b2 :: b3 :: r3 =>
        ((b - 240) * 262144 + (b1 - 128) * 4096 + (b2 - 128) * 64 + (b3 - 128))
          :: utf8_decode r3
      | _ => []
      end
  end.

Definition py (s : string) : pystr :=
  utf8_decode (map N_of_ascii (list_ascii_of_string s)).

(** [Py_UNICODE_ISSPACE]: the code points [str.strip()] removes. *)
Definition isspace (c : N) : bool :=
  ((9 <=? c) && (c <=? 13)) || ((28 <=? c) && (c <=? 32))
  || (c =? 133) || (c =? 160) || (c =? 5760)
  || ((8192 <=? c) && (c <=? 8202))
  || (c =? 8232) || (c =? 8233) || (c =? 8239) || (c =? 8287) || (c =? 12288).

Fixpoint lstrip (s : pystr) : pystr :=
  match s with
  | c :: r => if isspace c then lstrip r else s
  | [] => []
  end.

Definition rstrip (s : pystr) : pystr := rev (lstrip (rev s)).

(** [s.strip()] *)
Definition strip (s : pystr) : pystr := rstrip (lstrip s).

(** [s.endswith(suffix)]: the tail of [s] of the length of [suffix] is
    compared with [suffix]. *)
Definition endswith (s suffix : pystr) : bool :=
  bool_decide (length suffix <= length s)%nat
  && bool_decide (drop (length s - length suffix)%nat s = suffix).

(** [s.endswith((p1, ..., pn))] *)
Definition endswith_any (s : pystr) (suffixes : list pystr) : bool :=
  existsb (endswith s) suffixes.

(** [s.lower()].  ASCII letters are folded here.  The lower-case mapping
    of the code points from 128 on is Unicode data, taken as the parameter
    [lower_full]: one code point may map to several, and the mapping may
    look at what stands before and after the code point in the string (as
    it does for the capital sigma). *)
Definition ascii_lower (c : N) : N :=
  if (65 <=? c) && (c <=? 90) then c + 32 else c.

Definition lower_cp (lower_full : pystr -> pystr -> N -> pystr)
    (before after : pystr) (c : N) : pystr :=
  if c <? 128 then [ascii_lower c] else lower_full before after c.

(** The lower-case form of [s] when it stands between [before] and
    [after]. *)
Fixpoint lower_from (lower_full : pystr -> pystr -> N -> pystr)
    (before s after : pystr) : pystr :=
  match s with
  | [] => []
  | c :: r =>
    lower_cp lower_full before (r ++ after) c
    ++ lower_from lower_full (before ++ [c]) r after
  end.

Definition lower (lower_full : pystr -> pystr -> N -> pystr) (s : pystr) : pystr :=
  lower_from lower_full [] s [].

(** [os.path.basename] as [posixpath] defines it: [p[p.rfind('/') + 1:]] *)
Fixpoint basename_aux (p acc : pystr) : pystr :=
  match p with
  | [] => acc
  | c :: r => if c =? 47 then basename_aux r r else basename_aux r acc
  end.

Definition basename (p : pystr) : pystr := basename_aux p p.

End Str.

Import Str.

(** ** [datetime] and [strftime]

    A [datetime] holds its fields within the ranges its constructor
    enforces (year 1..9999, month 1..12, ...); [%Y] prints four decimal
    digits and [%m %d %H %M %S] two, zero-padded. *)

Record datetime := mk_datetime {
  year : N; month : N; day : N; hour : N; minute : N; second : N
}.

Definition digit (n : N) : N := 48 + n mod 10.

Definition pad2 (n : N) : pystr := [digit (n / 10); digit n].

Definition pad4 (n : N) : pystr :=
  [digit (n / 1000); digit (n / 100); digit (n / 10); digit n].

(** [t.strftime("%H:%M")] *)
Definition strftime_HM (t : datetime) : pystr :=
  pad2 (hour t) ++ py ":" ++ pad2 (minute t).

(** [t.strftime('%Y-%m-%d %H:%M:%S')] *)
Definition strftime_YmdHMS (t : datetime) : pystr :=
  pad4 (year t) ++ py "-" ++ pad2 (month t) ++ py "-" ++ pad2 (day t)
  ++ py " " ++ pad2 (hour t) ++ py ":" ++ pad2 (minute t) ++ py ":"
  ++ pad2 (second t).

(** ** The data model: [MessageType], [Message], [Theme], [Themes] *)

Inductive MessageType := TEXT | IMAGE | FILE | SYSTEM.

#[global] Instance MessageType_eq_dec : EqDecision MessageType.
Proof. solve_decision. Defined.

Record Message := mk_Message {
  content : pystr;
  type : MessageType;
  sender : pystr;
  timestamp : datetime;
  metadata : option (gmap pystr pystr)
}.

Record Theme := mk_Theme {
  name : pystr;
  colors : gmap pystr pystr
}.

(** The class [Themes] holds the only three [Theme] objects the program
    ever creates.  [ThemeRef] is a reference to one of them; [Themes] is
    the part of the heap where they live. *)
Inductive ThemeRef := DARK | LIGHT | NORD.

#[global] Instance ThemeRef_eq_dec : EqDecision ThemeRef.
Proof. solve_decision. Defined.

Record Themes := mk_Themes {
  Themes_DARK : Theme;
  Themes_LIGHT : Theme;
  Themes_NORD : Theme
}.

Definition deref (h : Themes) (r : ThemeRef) : Theme :=
  match r with
  | DARK => Themes_DARK h
  | LIGHT => Themes_LIGHT h
  | NORD => Themes_NORD h
  end.

Definition dict (kvs : list (string * string)) : gmap pystr pystr :=
  list_to_map (map (fun kv => (py (fst kv), py (snd kv))) kvs).

(** The heap as the class body of [Themes] builds it. *)
Definition Themes_class : Themes := {|
  Themes_DARK := mk_Theme (py "Dark") (dict [
    ("background", "#36393F");
    ("secondary", "#2F3136");
    ("accent", "#7289DA");
    ("text", "#FFFFFF");
    ("input", "#40444B");
    ("hover", "#677BC4");
    ("pressed", "#5B6EAE") ]%string);
  Themes_LIGHT := mk_Theme (py "Light") (dict [
    ("background", "#FFFFFF");
    ("secondary", "#F2F3F5");
    ("accent", "#5865F2");
    ("text", "#2E3338");
    ("input", "#EBEDEF");
    ("hover", "#4752C4");
    ("pressed", "#3C45A5") ]%string);
  Themes_NORD := mk_Theme (py "Nord") (dict [
    ("background", "#2E3440");
    ("secondary", "#3B4252");
    ("accent", "#88C0D0");
    ("text", "#ECEFF4");
    ("input", "#434C5E");
    ("hover", "#81A1C1");
    ("pressed", "#5E81AC") ]%string)
|}.

(** ** Exceptions *)

Inductive exn := KeyError (key : pystr) | IndexError.

Inductive result (A : Type) := Returned (a : A) | Raised (e : exn).
Arguments Returned {A} a.
Arguments Raised {A} e.

#[global] Instance result_ret : MRet result := fun A a => Returned a.
#[global] Instance result_bind : MBind result := fun A B f m =>
  match m with
  | Returned a => f a
  | Raised e => Raised e
  end.

(** [d[key]] *)
Definition getitem (d : gmap pystr pystr) (key : string) : result pystr :=
  match d !! py key with
  | Some v => Returned v
  | None => Raised (KeyError (py key))
  end.

(** An f-string: its parts are evaluated from left to right and the first
    one that raises decides the outcome. *)
Definition lit (s : string) : result pystr := Returned (py s).

Definition fstr (parts : list (result pystr)) : result pystr :=
  foldr (fun p acc => x ← p; r ← acc; mret (x ++ r)) (mret []) parts.

(** ** Widgets *)

Inductive AspectRatioMode :=
  IgnoreAspectRatio | KeepAspectRatio | KeepAspectRatioByExpanding.

Inductive TransformationMode := FastTransformation | SmoothTransformation.

(** [QPixmap(fileName).scaled(w, h, aspect, mode)] *)
Record QPixmap := mk_QPixmap {
  fileName : pystr;
  scaled_w : N;
  scaled_h : N;
  aspect : AspectRatioMode;
  mode : TransformationMode
}.

Record QLabel := mk_QLabel {
  label_text : pystr;
  label_pixmap : option QPixmap;
  label_wordWrap : bool;
  label_styleSheet : pystr
}.

(** [QLabel(text)]: no pixmap, no word wrap, empty style sheet. *)
Definition QLabel_new (text : pystr) : QLabel := mk_QLabel text None false [].

Definition setStyleSheet (ss : pystr) (l : QLabel) : QLabel :=
  mk_QLabel (label_text l) (label_pixmap l) (label_wordWrap l) ss.

Definition setWordWrap (b : bool) (l : QLabel) : QLabel :=
  mk_QLabel (label_text l) (label_pixmap l) b (label_styleSheet l).

Definition setPixmap (p : QPixmap) (l : QLabel) : QLabel :=
  mk_QLabel (label_text l) (Some p) (label_wordWrap l) (label_styleSheet l).

(** A [ChatMessageWidget] after [__init__]: the references it keeps, the
    two header labels, the content label and its own style sheet. *)
Record ChatMessageWidget := mk_ChatMessageWidget {
  self_message : Message;
  self_theme : ThemeRef;
  header_sender : QLabel;
  header_timestamp : QLabel;
  content_label : QLabel;
  widget_styleSheet : pystr
}.

(** [ChatMessageWidget.__init__] followed by [setup_ui]; [h] is the heap
    the reference [theme] points into. *)
Definition ChatMessageWidget_new (h : Themes) (message : Message) (theme : ThemeRef)
  : result ChatMessageWidget :=
  let c := colors (deref h theme) in
  (* Header (sender + timestamp) *)
  ss ← fstr [lit "color: "; getitem c "accent"; lit "; font-weight: bold;"];
  let sender_l := setStyleSheet ss (QLabel_new (sender message)) in
  ss ← fstr [lit "color: "; getitem c "text"; lit "; font-size: 10px;"];
  let timestamp_l := setStyleSheet ss (QLabel_new (strftime_HM (timestamp message))) in
  (* Content *)
  content_l ←
    (if decide (type message = TEXT) then
       ss ← fstr [lit "color: "; getitem c "text"; lit ";"];
       mret (setStyleSheet ss (setWordWrap true (QLabel_new (content message))))
     else if decide (type message = IMAGE) then
       mret (setPixmap
               (mk_QPixmap (content message) 300 300 KeepAspectRatio SmoothTransformation)
               (QLabel_new []))
     else
       ss ← fstr [lit "color: "; getitem c "accent"; lit ";"];
       mret (setStyleSheet ss
               (QLabel_new (py "📎 " ++ basename (content message)))));
  ss ← fstr [
    lit "
            ChatMessageWidget {
                background-color: ";
    getitem c "secondary";
    lit ";
                border-radius: 10px;
                padding: 10px;
                margin: 5px;
            }
        " ];
  mret (mk_ChatMessageWidget message theme sender_l timestamp_l content_l ss).

(** An item of the [QVBoxLayout] of the message area: the stretch added by
    [addStretch] or a message widget. *)
Inductive QLayoutItem := SpacerItem | WidgetItem (w : ChatMessageWidget).

(** [item.widget()] *)
Definition item_widget (i : QLayoutItem) : option ChatMessageWidget :=
  match i with
  | SpacerItem => None
  | WidgetItem w => Some w
  end.

(** [layout.insertWidget(index, w)]: a negative index appends. *)
Definition insertWidget (index : Z) (w : ChatMessageWidget) (l : list QLayoutItem)
  : list QLayoutItem :=
  if (index <? 0)%Z then l ++ [WidgetItem w]
  else take (Z.to_nat index) l ++ WidgetItem w :: drop (Z.to_nat index) l.

(** [layout.addWidget(w)] *)
Definition addWidget (w : ChatMessageWidget) (l : list QLayoutItem)
  : list QLayoutItem := l ++ [WidgetItem w].

(** The composer, a [QTextEdit]: its plain text and the cursor position. *)
Record QTextEdit := mk_QTextEdit {
  toPlainText : pystr;
  cursor : nat
}.

Definition insertPlainText (t : pystr) (e : QTextEdit) : QTextEdit :=
  mk_QTextEdit (take (cursor e) (toPlainText e) ++ t ++ drop (cursor e) (toPlainText e))
               (Nat.min (cursor e) (length (toPlainText e)) + length t).

Definition QTextEdit_clear (e : QTextEdit) : QTextEdit := mk_QTextEdit [] 0.

Inductive MessageIcon := NoIcon | Information | Warning | Critical.

(** [tray_icon.showMessage(title, msg, icon, msecs)] *)
Record TrayMessage := mk_TrayMessage {
  tray_title : pystr;
  tray_msg : pystr;
  tray_icon : MessageIcon;
  tray_msecs : N
}.

(** ** The state

    The heap of themes, the attributes of the one [ModernChatWindow], the
    pending [QTimer.singleShot] calls, the widgets handed to
    [deleteLater], and the files written. *)
Record State := mk_State {
  themes : Themes;
  current_theme : ThemeRef;
  messages : list Message;
  styleSheet : pystr;
  messages_layout : list QLayoutItem;
  message_input : QTextEdit;
  emoji_panel_visible : bool;
  tray_icon_visible : bool;
  tray_shown : list TrayMessage;
  single_shots : nat;
  deferred_delete : list ChatMessageWidget;
  window_visible : bool;
  files : gmap pystr pystr
}.

Definition set_current_theme (v : ThemeRef) (s : State) : State :=
  {| themes := themes s;
     current_theme := v;
     messages := messages s;
     styleSheet := styleSheet s;
     messages_layout := messages_layout s;
     message_input := message_input s;
     emoji_panel_visible := emoji_panel_visible s;
     tray_icon_visible := tray_icon_visible s;
     tray_shown := tray_shown s;
     single_shots := single_shots s;
     deferred_delete := deferred_delete s;
     window_visible := window_visible s;
     files := files s |}.

Definition set_messages (v : list Message) (s : State) : State :=
  {| themes := themes s;
     current_theme := current_theme s;
     messages := v;
     styleSheet := styleSheet s;
     messages_layout := messages_layout s;
     message_input := message_input s;
     emoji_panel_visible := emoji_panel_visible s;
     tray_icon_visible := tray_icon_visible s;
     tray_shown := tray_shown s;
     single_shots := single_shots s;
     deferred_delete := deferred_delete s;
     window_visible := window_visible s;
     files := files s |}.

Definition set_styleSheet (v : pystr) (s : State) : State :=
  {| themes := themes s;
     current_theme := current_theme s;
     messages := messages s;
     styleSheet := v;
     messages_layout := messages_layout s;
     message_input := message_input s;
     emoji_panel_visible := emoji_panel_visible s;
     tray_icon_visible := tray_icon_visible s;
     tray_shown := tray_shown s;
     single_shots := single_shots s;
     deferred_delete := deferred_delete s;
     window_visible := window_visible s;
     files := files s |}.

Definition set_messages_layout (v : list QLayoutItem) (s : State) : State :=
  {| themes := themes s;
     current_theme := current_theme s;
     messages := messages s;
     styleSheet := styleSheet s;
     messages_layout := v;
     message_input := message_input s;
     emoji_panel_visible := emoji_panel_visible s;
     tray_icon_visible := tray_icon_visible s;
     tray_shown := tray_shown s;
     single_shots := single_shots s;
     deferred_delete := deferred_delete s;
     window_visible := window_visible s;
     files := files s |}.

Definition set_message_input (v : QTextEdit) (s : State) : State :=
  {| themes := themes s;
     current_theme := current_theme s;
     messages := messages s;
     styleSheet := styleSheet s;
     messages_layout := messages_layout s;
     message_input := v;
     emoji_panel_visible := emoji_panel_visible s;
     tray_icon_visible := tray_icon_visible s;
     tray_shown := tray_shown s;
     single_shots := single_shots s;
     deferred_delete := deferred_delete s;
     window_visible := window_visible s;
     files := files s |}.

Definition set_emoji_panel_visible (v : bool) (s : State) : State :=
  {| themes := themes s;
     current_theme := current_theme s;
     messages := messages s;
     styleSheet := styleSheet s;
     messages_layout := messages_layout s;
     message_input := message_input s;
     emoji_panel_visible := v;
     tray_icon_visible := tray_icon_visible s;
     tray_shown := tray_shown s;
     single_shots := single_shots s;
     deferred_delete := deferred_delete s;
     window_visible := window_visible s;
     files := files s |}.

Definition set_tray_icon_visible (v : bool) (s : State) : State :=
  {| themes := themes s;
     current_theme := current_theme s;
     messages := messages s;
     styleSheet := styleSheet s;
     messages_layout := messages_layout s;
     message_input := message_input s;
     emoji_panel_visible := emoji_panel_visible s;
     tray_icon_visible := v;
     tray_shown := tray_shown s;
     single_shots := single_shots s;
     deferred_delete := deferred_delete s;
     window_visible := window_visible s;
     files := files s |}.

Definition set_tray_shown (v : list TrayMessage) (s : State) : State :=
  {| themes := themes s;
     current_theme := current_theme s;
     messages := messages s;
     styleSheet := styleSheet s;
     messages_layout := messages_layout s;
     message_input := message_input s;
     emoji_panel_visible := emoji_panel_visible s;
     tray_icon_visible := tray_icon_visible s;
     tray_shown := v;
     single_shots := single_shots s;
     deferred_delete := deferred_delete s;
     window_visible := window_visible s;
     files := files s |}.

Definition set_single_shots (v : nat) (s : State) : State :=
  {| themes := themes s;
     current_theme := current_theme s;
     messages := messages s;
     styleSheet := styleSheet s;
     messages_layout := messages_layout s;
     message_input := message_input s;
     emoji_panel_visible := emoji_panel_visible s;
     tray_icon_visible := tray_icon_visible s;
     tray_shown := tray_shown s;
     single_shots := v;
     deferred_delete := deferred_delete s;
     window_visible := window_visible s;
     files := files s |}.

Definition set_deferred_delete (v : list ChatMessageWidget) (s : State) : State :=
  {| themes := themes s;
     current_theme := current_theme s;
     messages := messages s;
     styleSheet := styleSheet s;
     messages_layout := messages_layout s;
     message_input := message_input s;
     emoji_panel_visible := emoji_panel_visible s;
     tray_icon_visible := tray_icon_visible s;
     tray_shown := tray_shown s;
     single_shots := single_shots s;
     deferred_delete := v;
     window_visible := window_visible s;
     files := files s |}.

Definition set_window_visible (v : bool) (s : State) : State :=
  {| themes := themes s;
     current_theme := current_theme s;
     messages := messages s;
     styleSheet := styleSheet s;
     messages_layout := messages_layout s;
     message_input := message_input s;
     emoji_panel_visible := emoji_panel_visible s;
     tray_icon_visible := tray_icon_visible s;
     tray_shown := tray_shown s;
     single_shots := single_shots s;
     deferred_delete := deferred_delete s;
     window_visible := v;
     files := files s |}.

Definition set_files (v : gmap pystr pystr) (s : State) : State :=
  {| themes := themes s;
     current_theme := current_theme s;
     messages := messages s;
     styleSheet := styleSheet s;
     messages_layout := messages_layout s;
     message_input := message_input s;
     emoji_panel_visible := emoji_panel_visible s;
     tray_icon_visible := tray_icon_visible s;
     tray_shown := tray_shown s;
     single_shots := single_shots s;
     deferred_delete := deferred_delete s;
     window_visible := window_visible s;
     files := v |}.

(** ** Methods: state transformers that may raise *)

Record method (A : Type) := Method { run : State -> result A * State }.
Arguments Method {A} _.
Arguments run {A} _ _.

#[global] Instance method_ret : MRet method :=
  fun A a => Method (fun s => (Returned a, s)).

#[global] Instance method_bind : MBind method := fun A B f m =>
  Method (fun s =>
    match run m s with
    | (Returned a, s') => run (f a) s'
    | (Raised e, s') => (Raised e, s')
    end).

Definition get {A} (f : State -> A) : method A :=
  Method (fun s => (Returned (f s), s)).

Definition modify (f : State -> State) : method unit :=
  Method (fun s => (Returned tt, f s)).

Definition lift {A} (r : result A) : method A := Method (fun s => (r, s)).

(** [for x in l: body(x)] *)
Fixpoint for_each {A} (l : list A) (body : A -> method unit) : method unit :=
  match l with
  | [] => mret tt
  | x :: r => body x;; for_each r body
  end.

(** [ChatMessageWidget(message, self.current_theme)] *)
Definition new_message_widget (message : Message) : method ChatMessageWidget :=
  h ← get themes;
  theme ← get current_theme;
  lift (ChatMessageWidget_new h message theme).

(** The loop
    [while layout.count() > 1: item = layout.takeAt(0); if item.widget(): item.widget().deleteLater()]
    on the items [l]: what stays in the layout and what is handed to
    [deleteLater]. *)
Fixpoint take_loop (l : list QLayoutItem) (deleted : list ChatMessageWidget)
  : list QLayoutItem * list ChatMessageWidget :=
  match l with
  | item :: ((_ :: _) as r) =>
    take_loop r (match item_widget item with
                 | Some w => deleted ++ [w]
                 | None => deleted
                 end)
  | _ => (l, deleted)
  end.

Definition refresh_messages : method unit :=
  (* Limpiar y recrear todos los mensajes con el tema actual *)
  modify (fun s =>
    let '(kept, deleted) := take_loop (messages_layout s) (deferred_delete s) in
    set_deferred_delete deleted (set_messages_layout kept s));;
  ms ← get messages;
  for_each ms (fun message =>
    message_widget ← new_message_widget message;
    modify (fun s =>
      set_messages_layout
        (insertWidget (Z.of_nat (length (messages_layout s)) - 1) message_widget
                      (messages_layout s)) s)).

(** The f-string [apply_theme] passes to [self.setStyleSheet], over the
    dictionary [c] = [theme.colors]. *)
Definition window_styleSheet (c : gmap pystr pystr) : result pystr :=
  fstr [
    lit "
            QMainWindow, QWidget {
                background-color: ";
    getitem c "background";
    lit ";
                color: ";
    getitem c "text";
    lit ";
            }
            
            QLineEdit, QTextEdit {
                background-color: ";
    getitem c "input";
    lit ";
                border-radius: 20px;
                padding: 10px;
                color: ";
    getitem c "text";
    lit ";
            }
            
            QPushButton {
                background-color: ";
    getitem c "accent";
    lit ";
                border-radius: 20px;
                padding: 10px 20px;
                color: white;
                font-weight: bold;
            }
            
            QPushButton:hover {
                background-color: ";
    getitem c "hover";
    lit ";
            }
            
            QPushButton:pressed {
                background-color: ";
    getitem c "pressed";
    lit ";
            }
            
            QListWidget {
                background-color: ";
    getitem c "secondary";
    lit ";
                border-radius: 10px;
                padding: 5px;
            }
            
            QListWidget::item:hover {
                background-color: ";
    getitem c "input";
    lit ";
            }
            
            QListWidget::item:selected {
                background-color: ";
    getitem c "accent";
    lit ";
            }
            
            QScrollArea {
                border: none;
            }
        " ].

Definition apply_theme (theme : ThemeRef) : method unit :=
  modify (set_current_theme theme);;
  (* Aplicar estilos generales *)
  h ← get themes;
  ss ← lift (window_styleSheet (colors (deref h theme)));
  modify (set_styleSheet ss);;
  (* Actualizar mensajes existentes *)
  refresh_messages.

Definition toggle_emoji_panel : method unit :=
  modify (fun s => set_emoji_panel_visible (negb (emoji_panel_visible s)) s).

Definition insert_emoji (emoji : pystr) : method unit :=
  modify (fun s => set_message_input (insertPlainText emoji (message_input s)) s).

Definition add_message (message : Message) : method unit :=
  modify (fun s => set_messages (messages s ++ [message]) s);;
  message_widget ← new_message_widget message;
  modify (fun s => set_messages_layout (addWidget message_widget (messages_layout s)) s).

Definition send_message (now : datetime) : method unit :=
  e ← get message_input;
  let text := strip (toPlainText e) in
  if bool_decide (text <> []) then
    let message := mk_Message text TEXT (py "Tú") now None in
    add_message message;;
    modify (fun s => set_message_input (QTextEdit_clear (message_input s)) s);;
    (* Simular respuesta automática *)
    modify (fun s => set_single_shots (S (single_shots s)) s)
  else mret tt.

Definition responses : list pystr := [
  py "¡Interesante punto de vista!";
  py "Entiendo lo que dices.";
  py "¿Podrías explicar más sobre eso?";
  py "Me parece una buena idea.";
  py "¿Qué más piensas al respecto?" ].

(** [random.choice(seq)]; [r] is what the generator draws. *)
Definition random_choice {A} (r : nat) (seq : list A) : result A :=
  match seq !! (r mod length seq)%nat with
  | Some x => Returned x
  | None => Raised IndexError
  end.

Definition simulate_response (now : datetime) (r : nat) : method unit :=
  response ← lift (random_choice r responses);
  let message := mk_Message response TEXT (py "Usuario 1") now None in
  add_message message;;
  (* Mostrar notificación *)
  modify (fun s =>
    set_tray_shown
      (tray_shown s ++ [mk_TrayMessage (py "Nuevo mensaje") (py "Usuario 1: " ++ response) Information 2000])
      s).

(** The slot of [QTimer.singleShot(1000, self.simulate_response)]: one
    pending shot is consumed when it fires. *)
Definition single_shot_fires (now : datetime) (r : nat) : method unit :=
  n ← get single_shots;
  match n with
  | O => mret tt
  | S n' => modify (set_single_shots n');; simulate_response now r
  end.

(** [open(file_path, 'w')] and [f.write(data)] *)
Definition open_w (file_path : pystr) : method unit :=
  modify (fun s => set_files (<[file_path := []]> (files s)) s).

Definition f_write (file_path data : pystr) : method unit :=
  modify (fun s =>
    set_files (<[file_path := default [] (files s !! file_path) ++ data]> (files s)) s).

Definition nl : pystr := [10].

(** The line written for one message in the text export. *)
Definition text_line (message : Message) : pystr :=
  py "[" ++ strftime_YmdHMS (timestamp message) ++ py "] "
  ++ sender message ++ py ": " ++ content message ++ nl.

(** The block written for one message in the HTML export. *)
Definition html_block (c : gmap pystr pystr) (message : Message) : result pystr :=
  fstr [
    lit "<div style='margin: 10px; padding: 10px; ";
    lit "background-color: "; getitem c "secondary"; lit ";'>";
    lit "<strong style='color: "; getitem c "accent"; lit ";'>";
    Returned (sender message); lit "</strong> ";
    lit "<span style='color: #999; font-size: 0.8em;'>";
    Returned (strftime_YmdHMS (timestamp message)); lit "</span><br>";
    lit "<span style='color: "; getitem c "text"; lit ";'>";
    Returned (content message); lit "</span></div>" ].

(** [file_path] is what [QFileDialog.getSaveFileName] returned. *)
Definition save_chat_history (file_path : pystr) : method unit :=
  if bool_decide (file_path = []) then mret tt
  else if endswith file_path (py ".txt") then
    open_w file_path;;
    ms ← get messages;
    for_each ms (fun message => f_write file_path (text_line message))
  else
    open_w file_path;;
    f_write file_path (py "<html><body style='font-family: Arial, sans-serif;'>");;
    ms ← get messages;
    for_each ms (fun message =>
      h ← get themes;
      theme ← get current_theme;
      data ← lift (html_block (colors (deref h theme)) message);
      f_write file_path data);;
    f_write file_path (py "</body></html>").

(** Key events as the filter reads them. *)
Record QEvent := mk_QEvent {
  event_type : N;
  key : N;
  modifiers : N
}.

Definition QEvent_KeyPress : N := 6.
Definition QEvent_KeyRelease : N := 7.
Definition Qt_Key_Return : N := 16777220.
Definition Qt_Key_Enter : N := 16777221.
Definition Qt_NoModifier : N := 0.
Definition Qt_ShiftModifier : N := 33554432.
Definition Qt_ControlModifier : N := 67108864.

(** The objects the filter can be asked about. *)
Inductive QObject := obj_message_input | obj_other (id : nat).

#[global] Instance QObject_eq_dec : EqDecision QObject.
Proof. solve_decision. Defined.

(** Returns whether the event is consumed; [super().eventFilter] is
    [QObject.eventFilter], which returns [False]. *)
Definition eventFilter (obj : QObject) (event : QEvent) (now : datetime) : method bool :=
  if bool_decide (obj = obj_message_input) && (event_type event =? QEvent_KeyPress) then
    if (key event =? Qt_Key_Return) && (modifiers event =? Qt_ControlModifier) then
      send_message now;;
      mret true
    else mret false
  else mret false.

(** Returns whether the close event is still accepted. *)
Definition closeEvent : method bool :=
  (* Minimizar a la bandeja del sistema en lugar de cerrar *)
  v ← get tray_icon_visible;
  if (v : bool) then modify (set_window_visible false);; mret false
  else mret true.

Definition emojis : list pystr := [
  py "😀"; py "😂"; py "🤣"; py "😊"; py "😍";
  py "🤔"; py "😎"; py "😭"; py "👍"; py "❤️";
  py "🎉"; py "✨"; py "🔥"; py "💯"; py "🙏";
  py "👏"; py "🤝"; py "💪"; py "🌟"; py "⭐" ].

(** [ModernChatWindow.__init__]: the attributes, then what [setup_ui] and
    [setup_tray] do to the state modelled here. *)
Definition ModernChatWindow_init : method unit :=
  modify (set_current_theme DARK);;
  modify (set_messages []);;
  modify (set_messages_layout [SpacerItem]);;
  modify (set_message_input (mk_QTextEdit [] 0));;
  modify (set_emoji_panel_visible false);;
  theme ← get current_theme;
  apply_theme theme;;
  modify (set_tray_icon_visible true).

(** The process before [main] runs: the class body of [Themes] has been
    executed, nothing else exists. *)
Definition process_start : State := {|
  themes := Themes_class;
  current_theme := DARK;
  messages := [];
  styleSheet := [];
  messages_layout := [];
  message_input := mk_QTextEdit [] 0;
  emoji_panel_visible := false;
  tray_icon_visible := false;
  tray_shown := [];
  single_shots := O;
  deferred_delete := [];
  window_visible := false;
  files := ∅
|}.

Definition welcome_message (now : datetime) : Message :=
  mk_Message (py "¡Bienvenido al chat! Este es un mensaje de sistema.")
             SYSTEM (py "Sistema") now None.

(** [main()] up to [app.exec()]. *)
Definition main_body (now : datetime) : method unit :=
  ModernChatWindow_init;;
  modify (set_window_visible true);;
  (* Mensaje de bienvenida *)
  add_message (welcome_message now).

Definition main (now : datetime) : State := (run (main_body now) process_start).2.

(** [file_path.lower().endswith(('.png', '.jpg', '.jpeg', '.gif'))] *)
Definition image_suffixes : list pystr := [py ".png"; py ".jpg"; py ".jpeg"; py ".gif"].

Section EventLoop.

(** The Unicode lower-case mapping of the code points from 128 on. *)
Variable lower_full : pystr -> pystr -> N -> pystr.

(** [file_path] is what [QFileDialog.getOpenFileName] returned. *)
Definition select_file (file_path : pystr) (now : datetime) : method unit :=
  if bool_decide (file_path <> []) then
    add_message
      (mk_Message file_path
         (if negb (endswith_any (lower lower_full file_path) image_suffixes)
          then FILE else IMAGE)
         (py "Tú") now None)
  else mret tt.

(** ** The event loop

    One event per signal the window is connected to, carrying what the
    environment supplies to the slot.  [composer_edited] stands for what
    the [QTextEdit] does on its own with the key and mouse events the
    filter lets through, a plain Return inserting a newline included. *)
Inductive Event :=
| send_button_clicked (now : datetime)
| emoji_btn_clicked
| file_btn_clicked (file_path : pystr) (now : datetime)
| emoji_button_clicked (i : nat)
| theme_action_triggered (theme : ThemeRef)
| save_chat_triggered (file_path : pystr)
| single_shot_timeout (now : datetime) (r : nat)
| event_filtered (obj : QObject) (event : QEvent) (now : datetime)
| composer_edited (text : pystr) (pos : nat)
| close_requested.

Definition slot (ev : Event) : method unit :=
  match ev with
  | send_button_clicked now => send_message now
  | emoji_btn_clicked => toggle_emoji_panel
  | file_btn_clicked file_path now => select_file file_path now
  | emoji_button_clicked i =>
    match emojis !! i with
    | Some emoji => insert_emoji emoji
    | None => mret tt
    end
  | theme_action_triggered theme => apply_theme theme
  | save_chat_triggered file_path => save_chat_history file_path
  | single_shot_timeout now r => single_shot_fires now r
  | event_filtered obj event now => eventFilter obj event now;; mret tt
  | composer_edited text pos => modify (set_message_input (mk_QTextEdit text pos))
  | close_requested =>
    accepted ← closeEvent;
    if (accepted : bool) then modify (set_window_visible false) else mret tt
  end.

(** One turn of the event loop: the slot runs (an exception it raises is
    reported and dropped), then the widgets handed to [deleteLater] are
    destroyed. *)
Definition dispatch (s : State) (ev : Event) : State :=
  set_deferred_delete [] (run (slot ev) s).2.

Definition run_events (evs : list Event) (s : State) : State :=
  foldl dispatch s evs.

End EventLoop.

(** ** Notions the statements are written with *)

(** What the loop of [refresh_messages] constructs: one widget per
    message, in the order of the log, the first failure raising. *)
Fixpoint render_all (h : Themes) (theme : ThemeRef) (ms : list Message)
  : result (list ChatMessageWidget) :=
  match ms with
  | [] => mret []
  | m :: r =>
    w ← ChatMessageWidget_new h m theme;
    ws ← render_all h theme r;
    mret (w :: ws)
  end.

(** The messages the timeline shows, top to bottom. *)
Definition timeline (s : State) : list Message :=
  self_message <$> omap item_widget (messages_layout s).

(** A property of the state that a method keeps, whether it returns or
    raises. *)
Definition stable {A} (P : State -> Prop) (m : method A) : Prop :=
  forall s, P s -> P (run m s).2.

(** The lines of a file, each with its newline, as [readlines] gives them. *)
Fixpoint lines_from (cur s : pystr) : list pystr :=
  match s with
  | [] => match cur with [] => [] | _ => [cur] end
  | c :: r => if c =? 10 then (cur ++ [c]) :: lines_from [] r
              else lines_from (cur ++ [c]) r
  end.

Definition file_lines (s : pystr) : list pystr := lines_from [] s.

Definition count_nl (s : pystr) : nat := length (filter (fun c => c = 10) s).

(** The extension of a path: the text from its last dot on, empty when it
    has no dot. *)
Fixpoint extension_from (acc p : pystr) : pystr :=
  match p with
  | [] => acc
  | c :: r => if c =? 46 then extension_from p r else extension_from acc r
  end.

Definition path_extension (p : pystr) : pystr := extension_from [] p.

(** Two strings that differ at most in the case of their ASCII letters. *)
Definition same_ignoring_case (a b : pystr) : Prop :=
  map ascii_lower a = map ascii_lower b.

(** Who wrote a message of the log: [Send] is the only source of text
    messages signed [Tú], the auto-reply the only source of messages
    signed [Usuario 1]. *)
Definition sent_by_self (m : Message) : bool :=
  bool_decide (type m = TEXT) && bool_decide (sender m = py "Tú").

Definition from_peer (m : Message) : bool :=
  bool_decide (sender m = py "Usuario 1").

Definition sends (log : list Message) : nat := length (filter sent_by_self log).

Definition replies (log : list Message) : nat := length (filter from_peer log).

(** Every reply answers an earlier [Send] of its own, and the shots still
    pending are the sends not yet answered. *)
Definition balanced (log : list Message) (pending : nat) : Prop :=
  (replies log + pending = sends log)%nat
  /\ forall k, (replies (take k log) <= sends (take k log))%nat.

(** A lower-case table to run the model on: Latin-1 and Greek capitals,
    the dotted capital I (two code points), the Kelvin sign, and the
    capital sigma, which takes its final form when no letter follows it;
    other code points are left as they are. *)
Definition is_letter (c : N) : bool :=
  ((65 <=? c) && (c <=? 90)) || ((97 <=? c) && (c <=? 122)) || (192 <=? c).

Definition lower_full_sample (before after : pystr) (c : N) : pystr :=
  if c =? 304 then [105; 775]
  else if c =? 8490 then [107]
  else if c =? 931 then
    match after with
    | d :: _ => if is_letter d then [963] else [962]
    | [] => [962]
    end
  else if (192 <=? c) && (c <=? 222) && negb (c =? 215) then [c + 32]
  else if (913 <=? c) && (c <=? 939) then [c + 32]
  else [c].

(** What one turn of the event loop may do to the log and to the pending
    shots. *)
Inductive log_step (s s' : State) : Prop :=
| step_same :
    messages s' = messages s -> single_shots s' = single_shots s ->
    log_step s s'
| step_send m :
    messages s' = messages s ++ [m] ->
    sent_by_self m = true -> from_peer m = false ->
    single_shots s' = S (single_shots s) ->
    log_step s s'
| step_reply m :
    messages s' = messages s ++ [m] ->
    sent_by_self m = false -> from_peer m = true ->
    S (single_shots s') = single_shots s ->
    log_step s s'
| step_attach m :
    messages s' = messages s ++ [m] ->
    sent_by_self m = false -> from_peer m = false ->
    single_shots s' = single_shots s ->
    log_step s s'.

(** [t] is [s] without the white space at its two ends. *)
Definition trimmed_form (s t : pystr) : Prop :=
  exists a b, s = a ++ t ++ b
    /\ forallb isspace a = true /\ forallb isspace b = true
    /\ (forall c, head t = Some c -> isspace c = false)
    /\ (forall c, last t = Some c -> isspace c = false).

(** The newline characters inside the senders and contents of a log. *)
Fixpoint inner_newlines (log : list Message) : nat :=
  match log with
  | [] => O
  | m :: r => (count_nl (sender m) + count_nl (content m) + inner_newlines r)%nat
  end.

(** Sample inputs the statements are run on. *)
Definition sample_start : datetime := mk_datetime 2024 5 17 9 3 7.

Definition sample_now : datetime := mk_datetime 2024 5 17 9 4 30.

(** The window after [main], the composer holding [text]. *)
Definition sample_typed (text : pystr) : State :=
  dispatch lower_full_sample (main sample_start) (composer_edited text (length text)).

(** What holds of every state the program reaches: the themes are the
    built-in ones, the layout is not empty, sends and replies are
    balanced. *)
Definition reached (s : State) : Prop :=
  themes s = Themes_class
  /\ messages_layout s <> []
  /\ balanced (messages s) (single_shots s).

(** A code point that is the last one of the lower-case form of an ASCII
    code point only: ASCII, not a capital, not [k]. *)
Definition plain (c : N) : Prop := c < 128 /\ ~ (65 <= c <= 90) /\ c <> 107.

(** ** The rest of the window: the emoji panel and the contact list *)

(** A button of the emoji panel: its label, its fixed size, and what its
    [clicked] slot emits.  The slot is [lambda checked, e=emoji: ...], so
    [e] is bound when the button is made. *)
Record QPushButton := mk_QPushButton {
  button_text : pystr;
  button_size : N * N;
  clicked_emits : pystr
}.

(** [range(0, stop, step)] for a positive [step] *)
Definition range_from_zero (stop step : nat) : list nat :=
  (fun k => k * step)%nat <$> seq 0 ((stop + step - 1) / step).

(** The rows [EmojiPanel.setup_ui] builds from its list [emojis]: one row
    per [i] in [range(0, len(emojis), 5)], one button per emoji of
    [emojis[i:i+5]]. *)
Definition emoji_grid (emojis : list pystr) : list (list QPushButton) :=
  (fun i => (fun emoji => mk_QPushButton emoji (40, 40) emoji)
              <$> take 5 (drop i emojis))
    <$> range_from_zero (length emojis) 5.

Definition EmojiPanel_setup_ui : list (list QPushButton) := emoji_grid emojis.

(** [needle in hay] for two strings *)
Fixpoint contains (needle hay : pystr) : bool :=
  if bool_decide (take (length needle) hay = needle) then true
  else match hay with
       | [] => false
       | _ :: r => contains needle r
       end.

(** An item of the contact list with its item widget: the [QLabel]
    children of the widget in the order they were added to its layout
    (the status dot, then the name), and whether the item is hidden. *)
Record ContactItem := mk_ContactItem {
  item_labels : list QLabel;
  item_hidden : bool
}.

Definition contacts : list (pystr * bool) := [
  (py "Usuario 1", true);
  (py "Usuario 2", false);
  (py "Grupo 1", true);
  (py "Usuario 3", true) ].

(** The list [setup_contacts] fills. *)
Definition setup_contacts : list ContactItem :=
  (fun c : pystr * bool =>
     let label := QLabel_new c.1 in
     let status :=
       setStyleSheet
         (py "color: " ++ (if c.2 then py "#43B581" else py "#747F8D") ++ py ";")
         (QLabel_new (py "•")) in
     mk_ContactItem [status; label] false) <$> contacts.

Section Contacts.

Variable lower_full : pystr -> pystr -> N -> pystr.

(** [widget.findChild(QLabel)]: one of the [QLabel] children; Qt leaves
    open which one when there are several. *)
Variable findChild : list QLabel -> QLabel.

(** The slot of [contact_search.textChanged]. *)
Definition filter_contacts (text : pystr) (items : list ContactItem)
  : list ContactItem :=
  (fun item =>
     let label := findChild (item_labels item) in
     mk_ContactItem (item_labels item)
       (negb (contains (lower lower_full text)
                       (lower lower_full (label_text label))))) <$> items.

End Contacts.

(** ** Notions the further statements are written with *)

(** The three kinds of entry the program adds to the log after the welcome
    message. *)
Definition user_text (m : Message) : Prop :=
  type m = TEXT /\ sender m = py "Tú"
  /\ content m <> [] /\ strip (content m) = content m.

Definition attachment (m : Message) : Prop :=
  (type m = FILE \/ type m = IMAGE) /\ sender m = py "Tú" /\ content m <> [].

Definition auto_reply (m : Message) : Prop :=
  type m = TEXT /\ sender m = py "Usuario 1" /\ content m ∈ responses.

(** The notification [simulate_response] shows for the reply [m]. *)
Definition notification (m : Message) : TrayMessage :=
  mk_TrayMessage (py "Nuevo mensaje") (py "Usuario 1: " ++ content m) Information 2000.

(** What an event other than a theme switch does to the log, the layout
    and the notifications: nothing, or one message and its widget appended
    together. *)
Inductive grows (s s' : State) : Prop :=
| grows_none :
    messages s' = messages s -> messages_layout s' = messages_layout s ->
    tray_shown s' = tray_shown s -> current_theme s' = current_theme s ->
    grows s s'
| grows_one m w :
    messages s' = messages s ++ [m] ->
    messages_layout s' = messages_layout s ++ [WidgetItem w] ->
    self_message w = m -> self_theme w = current_theme s ->
    current_theme s' = current_theme s ->
    metadata m = None ->
    (user_text m /\ tray_shown s' = tray_shown s
     \/ attachment m /\ tray_shown s' = tray_shown s
     \/ auto_reply m /\ tray_shown s' = tray_shown s ++ [notification m]) ->
    grows s s'.

(** What a theme switch does to them: the widgets are rebuilt under the
    new theme in front of the item that was last. *)
Inductive rethemed (theme : ThemeRef) (s s' : State) : Prop :=
| rethemed_intro pre x ws :
    messages_layout s = pre ++ [x] ->
    messages_layout s' = (WidgetItem <$> ws) ++ [x] ->
    self_message <$> ws = messages s ->
    Forall (fun w => self_theme w = theme) ws ->
    messages s' = messages s -> tray_shown s' = tray_shown s ->
    current_theme s' = theme ->
    rethemed theme s s'.

Definition is_theme_switch (ev : Event) : bool :=
  match ev with
  | theme_action_triggered _ => true
  | _ => false
  end.


(** The block the HTML export writes for [m] once the three colours it
    reads are known. *)
Definition html_div (secondary accent text : pystr) (m : Message) : pystr :=
  py "<div style='margin: 10px; padding: 10px; "
  ++ py "background-color: " ++ secondary ++ py ";'>"
  ++ py "<strong style='color: " ++ accent ++ py ";'>"
  ++ sender m ++ py "</strong> "
  ++ py "<span style='color: #999; font-size: 0.8em;'>"
  ++ strftime_YmdHMS (timestamp m) ++ py "</span><br>"
  ++ py "<span style='color: " ++ text ++ py ";'>"
  ++ content m ++ py "</span></div>".

Definition html_document (secondary accent text : pystr) (log : list Message)
  : pystr :=
  py "<html><body style='font-family: Arial, sans-serif;'>"
  ++ concat (html_div secondary accent text <$> log)
  ++ py "</body></html>".

(** The conditions under which [eventFilter] sends. *)
Definition is_send_shortcut (obj : QObject) (event : QEvent) : Prop :=
  obj = obj_message_input /\ event_type event = QEvent_KeyPress
  /\ key event = Qt_Key_Return /\ modifiers event = Qt_ControlModifier.

(** The dictionary [c] has the key [k]. *)
Definition has_key (c : gmap pystr pystr) (k : string) : Prop :=
  is_Some (c !! py k).

(** Further sample inputs. *)

(** [findChild] returning the first child. *)
Definition findChild_first (l : list QLabel) : QLabel :=
  default (QLabel_new []) (head l).

(** The heap with one colour taken out of the Dark theme. *)
Definition Themes_without (k : string) : Themes :=
  mk_Themes (mk_Theme (py "Dark") (delete (py k) (colors (Themes_DARK Themes_class))))
            (Themes_LIGHT Themes_class) (Themes_NORD Themes_class).

(** The window after [main] over a heap whose Dark theme has no [hover]. *)
Definition set_themes_sample : State :=
  let s := main sample_start in
  mk_State (Themes_without "hover") (current_theme s) (messages s) (styleSheet s)
           (messages_layout s) (message_input s) (emoji_panel_visible s)
           (tray_icon_visible s) (tray_shown s) (single_shots s)
           (deferred_delete s) (window_visible s) (files s).

(** * Proofs *)

(** ** The model on small inputs *)

Example py_ascii : py "Hi!" = [72; 105; 33].
Proof. reflexivity. Qed.

Example py_latin : py "Tú" = [84; 250].
Proof. reflexivity. Qed.

Example py_astral : py "📎 " = [128206; 32].
Proof. reflexivity. Qed.

Example strip_both : strip (py "  hola mundo " ++ nl) = py "hola mundo".
Proof. reflexivity. Qed.

Example strip_keeps_inner_newline :
  strip (py " uno" ++ nl ++ py "dos ") = py "uno" ++ nl ++ py "dos".
Proof. reflexivity. Qed.

Example strip_blank : strip (py "  " ++ nl) = [].
Proof. reflexivity. Qed.

Example endswith_yes : endswith (py "a/b.png") (py ".png") = true.
Proof. reflexivity. Qed.

Example endswith_short : endswith (py "png") (py ".png") = false.
Proof. reflexivity. Qed.

Example basename_path : basename (py "/home/u/notes.txt") = py "notes.txt".
Proof. reflexivity. Qed.

Example lower_mixed :
  lower lower_full_sample (py "Foto.PNG") = py "foto.png".
Proof. reflexivity. Qed.

Example lower_sigma :
  lower lower_full_sample (py "ΟΔΟΣ.JPG") = py "οδος.jpg".
Proof. reflexivity. Qed.

Example lower_dotted_i :
  lower lower_full_sample (py "x.gİf") = [120; 46; 103; 105; 775; 102].
Proof. reflexivity. Qed.

Example path_extension_last_dot :
  path_extension (py "/srv/v1.2/archive.tar.GIF") = py ".GIF".
Proof. reflexivity. Qed.

Example path_extension_none : path_extension (py "/srv/README") = [].
Proof. reflexivity. Qed.

Example strftime_sample :
  strftime_YmdHMS sample_start = py "2024-05-17 09:03:07".
Proof. reflexivity. Qed.

Example main_log : messages (main sample_start) = [welcome_message sample_start].
Proof. vm_compute. reflexivity. Qed.

Example main_timeline : timeline (main sample_start) = messages (main sample_start).
Proof. vm_compute. reflexivity. Qed.

Example seven_colors r : size (colors (deref Themes_class r)) = 7%nat.
Proof. destruct r; vm_compute; reflexivity. Qed.

Example dark_accent :
  colors (Themes_DARK Themes_class) !! py "accent" = Some (py "#7289DA").
Proof. vm_compute. reflexivity. Qed.

Example attach_photo :
  type <$> last (messages (dispatch lower_full_sample (main sample_start)
                             (file_btn_clicked (py "photo.PNG") sample_now)))
  = Some IMAGE.
Proof. vm_compute. reflexivity. Qed.

Example attach_notes :
  type <$> last (messages (dispatch lower_full_sample (main sample_start)
                             (file_btn_clicked (py "notes.png.txt") sample_now)))
  = Some FILE.
Proof. vm_compute. reflexivity. Qed.

Example attach_cancelled :
  messages (dispatch lower_full_sample (main sample_start)
              (file_btn_clicked [] sample_now))
  = messages (main sample_start).
Proof. vm_compute. reflexivity. Qed.

(** ** Running methods *)

Ltac run_simpl :=
  cbn [run mbind method_bind mret method_ret get modify lift fst snd
       themes current_theme messages styleSheet messages_layout message_input
       emoji_panel_visible tray_icon_visible tray_shown single_shots
       deferred_delete window_visible files
       set_current_theme set_messages set_styleSheet set_messages_layout
       set_message_input set_emoji_panel_visible set_tray_icon_visible
       set_tray_shown set_single_shots set_deferred_delete set_window_visible
       set_files].

Lemma run_bind {A B} (m : method A) (k : A -> method B) s :
  run (m ≫= k) s =
  match run m s with
  | (Returned a, s') => run (k a) s'
  | (Raised e, s') => (Raised e, s')
  end.
Proof. reflexivity. Qed.

Ltac run_steps := repeat (progress run_simpl || rewrite run_bind).

Section Stable.

Context (P : State -> Prop).

Lemma stable_ret {A} (a : A) : stable P (mret a).
Proof. intros s Hs. exact Hs. Qed.

Lemma stable_get {A} (f : State -> A) : stable P (get f).
Proof. intros s Hs. exact Hs. Qed.

Lemma stable_lift {A} (r : result A) : stable P (lift r).
Proof. intros s Hs. exact Hs. Qed.

Lemma stable_modify (g : State -> State) :
  (forall s, P s -> P (g s)) -> stable P (modify g).
Proof. intros Hg s Hs. apply Hg, Hs. Qed.

Lemma stable_bind {A B} (m : method A) (k : A -> method B) :
  stable P m -> (forall a, stable P (k a)) -> stable P (m ≫= k).
Proof.
  intros Hm Hk s Hs. rewrite run_bind.
  specialize (Hm s Hs). destruct (run m s) as [[a|e] s']; simpl in *.
  - apply Hk, Hm.
  - exact Hm.
Qed.

Lemma stable_for_each {A} (l : list A) (body : A -> method unit) :
  (forall x, stable P (body x)) -> stable P (for_each l body).
Proof.
  intros Hb. induction l as [|x l IH]; simpl.
  - apply stable_ret.
  - apply stable_bind; [apply Hb | intros _; exact IH].
Qed.

End Stable.

(** A field no [modify] of the method writes keeps its value. *)
Ltac stable_step :=
  lazy zeta;
  lazymatch goal with
  | |- stable _ (if ?c then _ else _) => destruct c
  | |- stable _ (match ?c with _ => _ end) => destruct c
  | |- stable _ (mret _) => apply stable_ret
  | |- stable _ (get _) => apply stable_get
  | |- stable _ (lift _) => apply stable_lift
  | |- stable _ (mbind _ _) => apply stable_bind; [|intros ?]
  | |- stable _ (for_each _ _) => apply stable_for_each; intros ?
  | |- stable _ (modify _) =>
    apply stable_modify; intros [? ? ? ? layout ? ? ? ? ? ? ? ?] ?;
    repeat match goal with
           | |- context [take_loop ?a ?b] => destruct (take_loop a b) eqn:?
           end;
    try assumption
  end.

Ltac stable_auto := repeat stable_step.

Ltac unfold_methods :=
  unfold slot, eventFilter, single_shot_fires, closeEvent;
  unfold send_message, simulate_response, select_file, apply_theme,
    save_chat_history, toggle_emoji_panel, insert_emoji;
  unfold add_message, refresh_messages, open_w, f_write;
  unfold new_message_widget.

Lemma slot_themes lower_full ev v :
  stable (fun s => themes s = v) (slot lower_full ev).
Proof.
  destruct ev; unfold_methods; stable_auto.
Qed.

Lemma dispatch_themes lower_full s ev :
  themes (dispatch lower_full s ev) = themes s.
Proof.
  unfold dispatch. 
  pose proof (slot_themes lower_full ev (themes s) s eq_refl) as H.
  destruct (run _ s) as [r [] ]. simpl in *. exact H.
Qed.

Lemma run_events_themes lower_full evs s :
  themes (run_events lower_full evs s) = themes s.
Proof.
  revert s. induction evs as [|ev evs IH]; intros s; simpl; [done|].
  rewrite IH. apply dispatch_themes.
Qed.

Lemma main_themes now : themes (main now) = Themes_class.
Proof. 
  unfold main.
  assert (H : stable (fun s => themes s = Themes_class) (main_body now)).
  { unfold main_body, ModernChatWindow_init. unfold_methods. stable_auto. }
  apply H. reflexivity.
Qed.

(** ** Rendering under the built-in themes never raises *)

Lemma getitem_class r (k : string) :
  k ∈ ["background"; "secondary"; "accent"; "text"; "input"; "hover"; "pressed"]%string ->
  exists v, getitem (colors (deref Themes_class r)) k = Returned v.
Proof.
  intros Hk.
  repeat (apply elem_of_cons in Hk as [->|Hk]); [..|by apply elem_of_nil in Hk];
    destruct r; vm_compute; eauto.
Qed.

Ltac lookup_color r k v H :=
  destruct (getitem_class r k) as [v H]; [set_solver|].

Ltac fstr_simpl := cbn [fstr foldr mbind result_bind mret result_ret lit].

Lemma widget_total m r :
  exists w, ChatMessageWidget_new Themes_class m r = Returned w
            /\ self_message w = m /\ self_theme w = r.
Proof.
  unfold ChatMessageWidget_new.
  lookup_color r "accent"%string ca Ha.
  lookup_color r "text"%string ct Ht.
  lookup_color r "secondary"%string cs Hs.
  fstr_simpl. rewrite Ha, Ht, Hs. fstr_simpl.
  destruct (decide (type m = TEXT)); [eauto|].
  destruct (decide (type m = IMAGE)); eauto.
Qed.

Lemma render_all_total r ms :
  exists ws, render_all Themes_class r ms = Returned ws
             /\ self_message <$> ws = ms
             /\ Forall (fun w => self_theme w = r) ws.
Proof.
  induction ms as [|m ms (ws & Hws & Hm & Hr)]; simpl.
  - exists []. done.
  - destruct (widget_total m r) as (w & Hw & Hwm & Hwr).
    exists (w :: ws). rewrite Hw. simpl. rewrite Hws. simpl.
    split; [done|]. split; [cbn; by f_equal | by constructor].
Qed.

(** ** What each method does when the themes are the built-in ones *)

Lemma add_message_run m s :
  themes s = Themes_class ->
  exists w, ChatMessageWidget_new Themes_class m (current_theme s) = Returned w /\
    run (add_message m) s =
      (Returned tt,
       set_messages_layout (messages_layout s ++ [WidgetItem w])
         (set_messages (messages s ++ [m]) s)).
Proof.
  intros Hh. destruct (widget_total m (current_theme s)) as (w & Hw & _).
  exists w. split; [done|].
  unfold add_message, new_message_widget, addWidget. run_simpl.
  rewrite Hh, Hw. reflexivity.
Qed.

Lemma take_loop_cons y l d :
  l <> [] ->
  take_loop (y :: l) d =
  take_loop l (match item_widget y with Some w => d ++ [w] | None => d end).
Proof. by destruct l. Qed.

Lemma take_loop_last pre x d :
  take_loop (pre ++ [x]) d = ([x], d ++ omap item_widget pre).
Proof.
  revert d. induction pre as [|y pre IH]; intros d.
  - simpl. by rewrite app_nil_r.
  - rewrite <- app_comm_cons, take_loop_cons by (by destruct pre).
    rewrite IH. f_equal.
    destruct y; simpl; [done|]. by rewrite <- app_assoc.
Qed.

Lemma insertWidget_before_last pre x w :
  insertWidget (Z.of_nat (length (pre ++ [x])) - 1) w (pre ++ [x])
  = (pre ++ [WidgetItem w]) ++ [x].
Proof.
  unfold insertWidget. rewrite length_app. simpl.
  replace (Z.of_nat (length pre + 1) - 1)%Z with (Z.of_nat (length pre)) by lia.
  destruct (Z.ltb_spec (Z.of_nat (length pre)) 0); [lia|].
  rewrite Nat2Z.id, take_app_length, drop_app_length.
  by rewrite <- app_assoc.
Qed.

Lemma set_messages_layout_twice l l' s :
  set_messages_layout l (set_messages_layout l' s) = set_messages_layout l s.
Proof. by destruct s. Qed.

Lemma refresh_loop_run ms : forall s pre x ws,
  messages_layout s = pre ++ [x] ->
  render_all (themes s) (current_theme s) ms = Returned ws ->
  run (for_each ms (fun message =>
         message_widget ← new_message_widget message;
         modify (fun s =>
           set_messages_layout
             (insertWidget (Z.of_nat (length (messages_layout s)) - 1)
                message_widget (messages_layout s)) s))) s
  = (Returned tt, set_messages_layout (pre ++ (WidgetItem <$> ws) ++ [x]) s).
Proof.
  induction ms as [|m ms IH]; intros s pre x ws Hl Hr;
    cbn [for_each render_all] in *.
  - injection Hr as <-. run_simpl. cbn [fmap list_fmap app]. rewrite <- Hl. by destruct s.
  - destruct (ChatMessageWidget_new _ m _) as [w|] eqn:Hw; [|done].
    cbn [mbind result_bind] in Hr.
    destruct (render_all _ _ ms) as [ws'|] eqn:Hws; [|done].
    injection Hr as <-.
    rewrite run_bind. unfold new_message_widget. run_simpl. rewrite Hw.
    rewrite Hl, insertWidget_before_last.
    erewrite IH; [| reflexivity | exact Hws].
    rewrite set_messages_layout_twice. cbn. by rewrite <- !app_assoc.
Qed.

Lemma window_styleSheet_total r :
  exists ss, window_styleSheet (colors (deref Themes_class r)) = Returned ss.
Proof.
  unfold window_styleSheet.
  lookup_color r "background"%string cb Hb.
  lookup_color r "text"%string ct Ht.
  lookup_color r "input"%string ci Hi.
  lookup_color r "accent"%string ca Ha.
  lookup_color r "hover"%string ch Hh.
  lookup_color r "pressed"%string cp Hp.
  lookup_color r "secondary"%string cs Hs.
  fstr_simpl. rewrite Hb, Ht, Hi, Ha, Hh, Hp, Hs. fstr_simpl. eauto.
Qed.

Lemma apply_theme_run theme :
  exists ss, forall s pre x,
    themes s = Themes_class -> messages_layout s = pre ++ [x] ->
    exists ws, render_all Themes_class theme (messages s) = Returned ws /\
      run (apply_theme theme) s =
      (Returned tt,
       set_messages_layout ((WidgetItem <$> ws) ++ [x])
         (set_deferred_delete (deferred_delete s ++ omap item_widget pre)
            (set_styleSheet ss (set_current_theme theme s)))).
Proof.
  destruct (window_styleSheet_total theme) as [ss Hss]. exists ss.
  intros s pre x Hh Hl.
  destruct (render_all_total theme (messages s)) as (ws & Hws & _).
  exists ws. split; [done|].
  unfold apply_theme, refresh_messages. run_simpl.
  rewrite Hh, Hss. run_simpl. rewrite Hl, take_loop_last.
  run_simpl.
  erewrite (refresh_loop_run _ _ []); [| reflexivity |].
  - by destruct s.
  - run_simpl. rewrite Hh. exact Hws.
Qed.

Lemma send_message_run now s :
  themes s = Themes_class ->
  strip (toPlainText (message_input s)) <> [] ->
  exists w,
    run (send_message now) s =
    (Returned tt,
     set_single_shots (S (single_shots s))
       (set_message_input (mk_QTextEdit [] 0)
          (set_messages_layout (messages_layout s ++ [WidgetItem w])
             (set_messages
                (messages s ++
                 [mk_Message (strip (toPlainText (message_input s))) TEXT
                             (py "Tú") now None]) s)))).
Proof.
  intros Hh Hne. unfold send_message. run_simpl.
  rewrite bool_decide_eq_true_2 by done. run_steps.
  destruct (add_message_run
              (mk_Message (strip (toPlainText (message_input s))) TEXT
                          (py "Tú") now None) s Hh) as (w & _ & ->).
  exists w. reflexivity.
Qed.

Lemma send_message_blank now s :
  strip (toPlainText (message_input s)) = [] ->
  run (send_message now) s = (Returned tt, s).
Proof.
  intros He. unfold send_message. run_simpl.
  rewrite bool_decide_eq_false_2 by (intros H; exact (H He)). reflexivity.
Qed.

Lemma random_choice_responses r :
  exists response, random_choice r responses = Returned response
                   /\ response ∈ responses.
Proof.
  unfold random_choice.
  assert (r mod length responses < length responses)%nat as Hlt
    by (apply Nat.mod_upper_bound; discriminate).
  destruct (lookup_lt_is_Some_2 responses _ Hlt) as [x Hx].
  exists x. rewrite Hx. split; [done|].
  by eapply list_elem_of_lookup_2.
Qed.

Lemma single_shot_fires_run now r s n :
  themes s = Themes_class -> single_shots s = S n ->
  exists response w,
    response ∈ responses /\
    run (single_shot_fires now r) s =
    (Returned tt,
     set_tray_shown
       (tray_shown s ++
        [mk_TrayMessage (py "Nuevo mensaje") (py "Usuario 1: " ++ response) Information 2000])
       (set_messages_layout (messages_layout s ++ [WidgetItem w])
          (set_messages
             (messages s ++ [mk_Message response TEXT (py "Usuario 1") now None])
             (set_single_shots n s)))).
Proof.
  intros Hh Hn. destruct (random_choice_responses r) as (response & Hr & Hin).
  unfold single_shot_fires. run_steps. rewrite Hn. run_steps.
  unfold simulate_response. run_steps. rewrite Hr. run_steps.
  destruct (add_message_run (mk_Message response TEXT (py "Usuario 1") now None)
              (set_single_shots n s)) as (w & _ & ->); [by destruct s|].
  exists response, w. split; [done|]. reflexivity.
Qed.

Lemma single_shot_fires_idle now r s :
  single_shots s = O -> run (single_shot_fires now r) s = (Returned tt, s).
Proof.
  intros Hn. unfold single_shot_fires. run_simpl. by rewrite Hn.
Qed.

(** ** The layout never becomes empty *)

Lemma take_loop_nonempty l d : l <> [] -> (take_loop l d).1 <> [].
Proof.
  revert d. induction l as [|x [|y l] IH]; intros d Hl; simpl; try done.
  apply IH. done.
Qed.

Lemma insertWidget_nonempty i w l : insertWidget i w l <> [].
Proof.
  unfold insertWidget. destruct (i <? 0)%Z.
  - by destruct l.
  - by destruct (take _ l).
Qed.

Lemma slot_layout lower_full ev :
  stable (fun s => messages_layout s <> []) (slot lower_full ev).
Proof.
  destruct ev; unfold_methods; stable_auto; simpl in *;
    try (by apply insertWidget_nonempty);
    try (unfold addWidget; by destruct layout).
  match goal with
  | H : take_loop ?a ?d = (?l, _) |- ?l <> [] =>
    pose proof (take_loop_nonempty a d) as H'; rewrite H in H'; by apply H'
  end.
Qed.

Lemma dispatch_layout lower_full s ev :
  messages_layout s <> [] -> messages_layout (dispatch lower_full s ev) <> [].
Proof.
  intros Hl. unfold dispatch.
  pose proof (slot_layout lower_full ev s Hl) as H.
  destruct (run _ s) as [r [] ]. exact H.
Qed.

Lemma nonempty_last {A} (l : list A) : l <> [] -> exists pre x, l = pre ++ [x].
Proof.
  intros Hl. destruct (exists_last Hl) as (pre & x & ->). eauto.
Qed.

(** ** The effect of one event on the log and on the pending shots *)

Lemma slot_quiet lower_full ev v n :
  match ev with
  | send_button_clicked _ | file_btn_clicked _ _ | single_shot_timeout _ _
  | event_filtered _ _ _ => False
  | _ => True
  end ->
  stable (fun s => messages s = v /\ single_shots s = n) (slot lower_full ev).
Proof.
  destruct ev; intros []; unfold_methods; stable_auto.
Qed.

Lemma self_text_is_send text now :
  sent_by_self (mk_Message text TEXT (py "Tú") now None) = true
  /\ from_peer (mk_Message text TEXT (py "Tú") now None) = false.
Proof. split; reflexivity. Qed.

Lemma peer_text_is_reply text now :
  sent_by_self (mk_Message text TEXT (py "Usuario 1") now None) = false
  /\ from_peer (mk_Message text TEXT (py "Usuario 1") now None) = true.
Proof. split; reflexivity. Qed.

Lemma send_message_log_step now s :
  themes s = Themes_class -> log_step s (run (send_message now) s).2.
Proof.
  intros Hh. destruct (decide (strip (toPlainText (message_input s)) = [])) as [He|Hne].
  - rewrite send_message_blank by done. by apply step_same.
  - destruct (send_message_run now s Hh Hne) as [w ->].
    eapply step_send; try apply self_text_is_send; reflexivity.
Qed.

Lemma dispatch_log_step lower_full s ev :
  themes s = Themes_class -> log_step s (dispatch lower_full s ev).
Proof.
  intros Hh. unfold dispatch.
  assert (forall s', log_step s s' -> log_step s (set_deferred_delete [] s')) as Hd.
  { intros [] H. destruct H; [eapply step_same | eapply step_send
      | eapply step_reply | eapply step_attach]; eauto. }
  apply Hd. clear Hd.
  destruct ev as [now| |file_path now|i|theme|file_path|now r|obj event now|text pos|];
    try (match goal with
         | |- log_step _ (run (slot _ ?e) _).2 =>
           pose proof (slot_quiet lower_full e (messages s) (single_shots s) I s
                         (conj eq_refl eq_refl)) as [? ?]
         end; by apply step_same).
  - by apply send_message_log_step.
  - (* attach *)
    cbn [slot]. unfold select_file.
    destruct (decide (file_path = [])) as [->|Hne]; [by apply step_same|].
    rewrite bool_decide_eq_true_2 by done.
    match goal with |- context [add_message ?m] =>
      destruct (add_message_run m s Hh) as (w & _ & ->) end.
    eapply step_attach; [reflexivity| | reflexivity | reflexivity].
    unfold sent_by_self. cbn [type]. by destruct (negb _).
  - (* timer *)
    cbn [slot]. destruct (single_shots s) as [|n] eqn:Hn.
    + rewrite single_shot_fires_idle by done. by apply step_same.
    + destruct (single_shot_fires_run now r s n Hh Hn) as (resp & w & _ & ->).
      eapply step_reply; try apply peer_text_is_reply; [reflexivity|].
      by destruct s.
  - (* key filter *)
    cbn [slot]. unfold eventFilter.
    destruct (_ && _); [|by apply step_same].
    destruct (_ && _); [|by apply step_same].
    run_steps.
    pose proof (send_message_log_step now s Hh) as H.
    destruct (run (send_message now) s) as [[[]|e] s']; exact H.
Qed.


(** ** Sends and replies stay balanced *)

Lemma sends_snoc l m :
  sends (l ++ [m]) = (sends l + (if sent_by_self m then 1 else 0))%nat.
Proof.
  unfold sends. rewrite filter_app, length_app. f_equal.
  rewrite filter_cons. by destruct (sent_by_self m).
Qed.

Lemma replies_snoc l m :
  replies (l ++ [m]) = (replies l + (if from_peer m then 1 else 0))%nat.
Proof.
  unfold replies. rewrite filter_app, length_app. f_equal.
  rewrite filter_cons. by destruct (from_peer m).
Qed.

Lemma take_snoc {A} k (l : list A) x :
  take k (l ++ [x]) = if decide (k <= length l)%nat then take k l else l ++ [x].
Proof.
  destruct (decide (k <= length l)%nat).
  - by rewrite take_app_le.
  - rewrite take_ge; [done|]. rewrite length_app. simpl. lia.
Qed.

Lemma balanced_snoc log pending pending' m :
  balanced log pending ->
  (replies (log ++ [m]) + pending' = sends (log ++ [m]))%nat ->
  balanced (log ++ [m]) pending'.
Proof.
  intros [Heq Hpre] Heq'. split; [done|].
  intros k. rewrite take_snoc. destruct (decide _); [apply Hpre | lia].
Qed.

Lemma balanced_step s s' :
  log_step s s' ->
  balanced (messages s) (single_shots s) ->
  balanced (messages s') (single_shots s').
Proof.
  intros [Hm Hp | m Hm Hs Hr Hp | m Hm Hs Hr Hp | m Hm Hs Hr Hp] Hb;
    rewrite Hm; [by rewrite Hp |..];
    (eapply balanced_snoc; [exact Hb|]);
    destruct Hb as [Heq _]; rewrite sends_snoc, replies_snoc, Hs, Hr; lia.
Qed.

(** ** What holds in every state the program reaches *)

Lemma main_messages now : messages (main now) = [welcome_message now].
Proof. vm_compute. reflexivity. Qed.

Lemma main_layout now :
  exists w, messages_layout (main now) = [SpacerItem; WidgetItem w]
            /\ self_message w = welcome_message now /\ self_theme w = DARK.
Proof. eexists. vm_compute. repeat split. Qed.

Lemma main_single_shots now : single_shots (main now) = O.
Proof. vm_compute. reflexivity. Qed.

Lemma main_reached now : reached (main now).
Proof.
  split; [apply main_themes|]. split.
  - destruct (main_layout now) as (w & -> & _). done.
  - rewrite main_messages, main_single_shots. split; [reflexivity|].
    intros [|k]; simpl; [reflexivity|]. rewrite take_nil. reflexivity.
Qed.

Lemma dispatch_reached lower_full s ev :
  reached s -> reached (dispatch lower_full s ev).
Proof.
  intros (Hh & Hl & Hb). split; [by rewrite dispatch_themes|]. split.
  - by apply dispatch_layout.
  - eapply balanced_step; [|exact Hb]. by apply dispatch_log_step.
Qed.

Lemma run_events_reached lower_full evs s :
  reached s -> reached (run_events lower_full evs s).
Proof.
  revert s. induction evs as [|ev evs IH]; intros s Hs; simpl; [done|].
  apply IH. by apply dispatch_reached.
Qed.

(** ** Strings *)

(** [strip] removes exactly the white space at both ends. *)
Lemma lstrip_spec s :
  exists a, s = a ++ lstrip s /\ forallb isspace a = true
            /\ (forall c, head (lstrip s) = Some c -> isspace c = false).
Proof.
  induction s as [|c s (a & Ha & Hsp & Hhd)]; simpl.
  - exists []. by repeat split.
  - destruct (isspace c) eqn:Hc.
    + exists (c :: a). simpl. rewrite Hc, Hsp. split; [by f_equal|]. done.
    + exists []. simpl. split; [done|]. split; [done|]. by intros ? [= <-].
Qed.

Lemma lstrip_spaces a s : forallb isspace a = true -> lstrip (a ++ s) = lstrip s.
Proof.
  induction a as [|c a IH]; simpl; [done|].
  intros [Hc Ha]%andb_true_iff. rewrite Hc. by apply IH.
Qed.

Lemma lstrip_id s :
  (forall c, head s = Some c -> isspace c = false) -> lstrip s = s.
Proof.
  destruct s as [|c s]; simpl; [done|]. intros H. by rewrite (H c).
Qed.

Lemma lstrip_all_spaces a : forallb isspace a = true -> lstrip a = [].
Proof. intros Ha. rewrite <- (app_nil_r a). by rewrite lstrip_spaces. Qed.

Lemma forallb_rev {A} (f : A -> bool) l : forallb f (rev l) = forallb f l.
Proof.
  induction l as [|x l IH]; simpl; [done|].
  rewrite forallb_app, IH. simpl. rewrite andb_true_r. apply andb_comm.
Qed.

Lemma head_rev_last {A} (l : list A) : head (rev l) = last l.
Proof.
  induction l as [|x l IH] using rev_ind; [done|].
  by rewrite rev_unit, last_snoc.
Qed.

Lemma strip_unique s t :
  trimmed_form s t -> strip s = t.
Proof.
  intros (a & b & -> & Ha & Hb & Hhd & Hlt). unfold strip, rstrip.
  rewrite lstrip_spaces by done.
  destruct t as [|c t].
  - simpl. by rewrite (lstrip_all_spaces b).
  - rewrite (lstrip_id ((c :: t) ++ b)) by (intros c' [= <-]; by apply Hhd).
    rewrite rev_app_distr, lstrip_spaces by (by rewrite forallb_rev).
    rewrite lstrip_id; [by rewrite rev_involutive|].
    intros c'. rewrite head_rev_last. apply Hlt.
Qed.

Lemma strip_trimmed s : trimmed_form s (strip s).
Proof.
  destruct (lstrip_spec s) as (a & Ha & Hsa & Hhd).
  destruct (lstrip_spec (rev (lstrip s))) as (b & Hb & Hsb & Hlt).
  exists a, (rev b). unfold strip, rstrip.
  apply (f_equal (@rev N)) in Hb. rewrite rev_involutive, rev_app_distr in Hb.
  split; [by rewrite <- Hb|]. split; [done|].
  split; [by rewrite forallb_rev|]. split.
  - intros c Hc. apply Hhd. rewrite Hb.
    destruct (rev (lstrip (rev (lstrip s)))); [done|]. exact Hc.
  - intros c. rewrite <- head_rev_last, rev_involutive. apply Hlt.
Qed.

(** [endswith] decides the suffix relation. *)
Lemma endswith_suffix s p : endswith s p = true <-> p `suffix_of` s.
Proof.
  unfold endswith. rewrite andb_true_iff, !bool_decide_eq_true. split.
  - intros [Hlen Hd]. exists (take (length s - length p) s).
    by rewrite <- Hd at 2; rewrite take_drop.
  - intros [k ->]. rewrite length_app. split; [lia|].
    replace (length k + length p - length p)%nat with (length k) by lia.
    by rewrite drop_app_length.
Qed.

(** ** Lower-casing and the image suffixes *)

Lemma ascii_lower_plain c x : ascii_lower c = x -> plain x -> c < 128.
Proof.
  unfold ascii_lower, plain. intros H (Hx & _).
  destruct (_ && _) eqn:E; [|lia].
  apply andb_true_iff in E as [?%N.leb_le ?%N.leb_le]. lia.
Qed.

Lemma ascii_lower_dot c : ascii_lower c = 46 <-> c = 46.
Proof.
  unfold ascii_lower. destruct (_ && _) eqn:E.
  - apply andb_true_iff in E as [?%N.leb_le ?%N.leb_le]. lia.
  - done.
Qed.

Section Lower.

Variable lower_full : pystr -> pystr -> N -> pystr.

Hypothesis lower_full_last :
  forall before after c, 128 <= c ->
    exists l x, lower_full before after c = l ++ [x] /\ (128 <= x \/ x = 107).

Lemma lower_from_app s t : forall before after,
  lower_from lower_full before (s ++ t) after
  = lower_from lower_full before s (t ++ after)
    ++ lower_from lower_full (before ++ s) t after.
Proof.
  induction s as [|c s IH]; intros before after; simpl.
  - by rewrite app_nil_r.
  - rewrite IH, <- !app_assoc. reflexivity.
Qed.

Lemma lower_from_ascii s : forall before after,
  Forall (fun c => c < 128) s ->
  lower_from lower_full before s after = map ascii_lower s.
Proof.
  induction s as [|c s IH]; intros before after Hs; simpl; [done|].
  apply Forall_cons in Hs as [Hc Hs]. rewrite IH by done.
  unfold lower_cp. destruct (N.ltb_spec c 128); [done|lia].
Qed.

Lemma suffix_lower_inv p : forall s before after,
  Forall plain p -> p `suffix_of` lower_from lower_full before s after ->
  exists q, q `suffix_of` s /\ map ascii_lower q = p.
Proof.
  induction p as [|x p IH] using rev_ind; intros s before after Hp Hs.
  - exists []. split; [apply suffix_nil | done].
  - apply Forall_app in Hp as [Hp Hx%Forall_inv].
    destruct s as [|c s _] using rev_ind.
    { destruct Hs as [k Hk]. simpl in Hk. by destruct k, p. }
    rewrite lower_from_app in Hs. cbn [lower_from app] in Hs.
    rewrite app_nil_r in Hs. unfold lower_cp in Hs.
    destruct (N.ltb_spec c 128) as [Hc|Hc].
    + pose proof (suffix_snoc_inv_1 _ _ _ _ Hs) as Hxc.
      apply suffix_snoc_inv_2 in Hs.
      destruct (IH s _ _ Hp Hs) as (q & Hq & Hm).
      exists (q ++ [c]). split; [by apply suffix_app|].
      rewrite map_app, Hm. simpl. by rewrite Hxc.
    + destruct (lower_full_last (before ++ s) after c Hc) as (l & y & Hl & Hy).
      rewrite Hl, app_assoc in Hs.
      pose proof (suffix_snoc_inv_1 _ _ _ _ Hs) as Hxy.
      unfold plain in Hx. lia.
Qed.

Lemma suffix_lower p s q :
  Forall plain p -> q `suffix_of` s -> map ascii_lower q = p ->
  p `suffix_of` lower lower_full s.
Proof.
  intros Hp [k ->] Hm. unfold lower. rewrite lower_from_app, (lower_from_ascii q).
  - rewrite Hm. by apply suffix_app_r.
  - subst p. clear k. induction q as [|c q IH]; [done|].
    simpl in Hp. apply Forall_cons in Hp as [Hc Hp].
    constructor; [by eapply ascii_lower_plain | by apply IH].
Qed.

Lemma endswith_lower_iff p s :
  Forall plain p ->
  endswith (lower lower_full s) p = true <->
  exists q, q `suffix_of` s /\ map ascii_lower q = p.
Proof.
  intros Hp. rewrite endswith_suffix. split.
  - by apply suffix_lower_inv.
  - intros (q & Hq & Hm). by eapply suffix_lower.
Qed.

End Lower.

(** The extension is the suffix that starts at the last dot. *)
Lemma extension_from_dotless acc p :
  46 ∉ p -> extension_from acc p = acc.
Proof.
  revert acc. induction p as [|c p IH]; intros acc Hp; simpl; [done|].
  apply not_elem_of_cons in Hp as [Hc Hp].
  destruct (N.eqb_spec c 46); [done|]. by apply IH.
Qed.

Lemma extension_from_last_dot acc k q :
  46 ∉ q -> extension_from acc (k ++ 46 :: q) = 46 :: q.
Proof.
  intros Hq. revert acc. induction k as [|c k IH]; intros acc; simpl.
  - by apply extension_from_dotless.
  - destruct (c =? 46); apply IH.
Qed.

Lemma extension_from_suffix acc p :
  extension_from acc p = acc \/ extension_from acc p `suffix_of` p.
Proof.
  revert acc. induction p as [|c p IH]; intros acc; simpl; [by left|].
  destruct (c =? 46).
  - right. destruct (IH (c :: p)) as [->|H]; [done|]. by apply suffix_cons_r.
  - destruct (IH acc) as [->|H]; [by left|]. right. by apply suffix_cons_r.
Qed.

Lemma dotted_suffix_extension p s :
  46 ∉ p ->
  (exists q, q `suffix_of` s /\ map ascii_lower q = 46 :: p) <->
  map ascii_lower (path_extension s) = 46 :: p.
Proof.
  intros Hp. split.
  - intros (q & [k ->] & Hm). destruct q as [|d q]; [done|].
    simpl in Hm. injection Hm as Hd Hm. apply ascii_lower_dot in Hd as ->.
    unfold path_extension. rewrite extension_from_last_dot.
    + simpl. by rewrite Hm.
    + intros Hin. apply Hp. rewrite <- Hm.
      apply list_elem_of_fmap. exists 46. split; [|done].
      symmetry. by apply ascii_lower_dot.
  - intros Hm. exists (path_extension s). split; [|done].
    unfold path_extension in *.
    destruct (extension_from_suffix [] s) as [He|Hs]; [|done].
    by rewrite He in Hm.
Qed.

(** ** The text export *)

Lemma set_files_twice f f' s : set_files f (set_files f' s) = set_files f s.
Proof. by destruct s. Qed.

Lemma write_loop_run file_path ms : forall s acc,
  files s !! file_path = Some acc ->
  run (for_each ms (fun message => f_write file_path (text_line message))) s
  = (Returned tt,
     set_files (<[file_path := acc ++ concat (text_line <$> ms)]> (files s)) s).
Proof.
  induction ms as [|m ms IH]; intros s acc Hacc; cbn [for_each].
  - run_simpl. cbn [fmap list_fmap concat]. rewrite app_nil_r.
    rewrite insert_id by done. by destruct s.
  - rewrite run_bind. unfold f_write at 1. run_simpl.
    rewrite Hacc. cbn [default].
    erewrite IH by (run_simpl; apply lookup_insert_eq).
    run_simpl. rewrite set_files_twice, insert_insert_eq.
    cbn [fmap list_fmap concat]. by rewrite app_assoc.
Qed.

Lemma save_text_run file_path s :
  file_path <> [] -> endswith file_path (py ".txt") = true ->
  run (save_chat_history file_path) s
  = (Returned tt,
     set_files (<[file_path := concat (text_line <$> messages s)]> (files s)) s).
Proof.
  intros Hne Htxt. unfold save_chat_history.
  rewrite bool_decide_eq_false_2 by done. rewrite Htxt.
  unfold open_w. run_steps.
  erewrite (write_loop_run _ _ _ []) by (run_simpl; apply lookup_insert_eq).
  run_simpl. by rewrite set_files_twice, insert_insert_eq.
Qed.

Lemma count_nl_app s t : count_nl (s ++ t) = (count_nl s + count_nl t)%nat.
Proof. unfold count_nl. by rewrite filter_app, length_app. Qed.

Lemma count_nl_zero s : count_nl s = O <-> 10 ∉ s.
Proof.
  unfold count_nl. induction s as [|c s IH]; simpl.
  - split; [intros _; apply not_elem_of_nil | done].
  - rewrite filter_cons, not_elem_of_cons. destruct (decide (c = 10)); simpl.
    + split; [done | intros [? _]; congruence].
    + rewrite IH. split; [intros; split; congruence | tauto].
Qed.

Lemma digit_not_nl n : digit n <> 10.
Proof. unfold digit. generalize (n mod 10). lia. Qed.

Lemma count_nl_strftime t : count_nl (strftime_YmdHMS t) = O.
Proof.
  apply count_nl_zero. unfold strftime_YmdHMS, pad4, pad2.
  intros H. vm_compute py in H.
  repeat (apply elem_of_app in H as [H|H] || apply elem_of_cons in H as [H|H]);
    try (by apply elem_of_nil in H); try discriminate H;
    by (symmetry in H; apply digit_not_nl in H).
Qed.

Lemma count_nl_text_line m :
  count_nl (text_line m) = S (count_nl (sender m) + count_nl (content m)).
Proof.
  unfold text_line. rewrite !count_nl_app, count_nl_strftime.
  change (count_nl (py "[")) with O. change (count_nl (py "] ")) with O.
  change (count_nl (py ": ")) with O. change (count_nl nl) with 1%nat. lia.
Qed.

Lemma count_nl_export log :
  count_nl (concat (text_line <$> log)) = (length log + inner_newlines log)%nat.
Proof.
  induction log as [|m log IH]; [done|].
  cbn [fmap list_fmap concat inner_newlines length].
  change (list_fmap ?A ?B ?f ?l) with (f <$> l).
  rewrite count_nl_app, count_nl_text_line, IH. lia.
Qed.

(** A file made of newline-terminated records has as many lines as it
    has newline characters. *)
Lemma lines_from_terminated s : forall cur,
  length (lines_from cur (s ++ [10])) = S (count_nl s).
Proof.
  induction s as [|c s IH]; intros cur; simpl; [done|].
  unfold count_nl. rewrite filter_cons.
  destruct (N.eqb_spec c 10) as [->|Hc].
  - rewrite decide_True by done. simpl. by rewrite IH.
  - rewrite decide_False by done. by rewrite IH.
Qed.

Lemma text_line_terminated m : exists body, text_line m = body ++ [10].
Proof. unfold text_line, nl. eexists. rewrite !app_assoc. reflexivity. Qed.

Lemma export_terminated log :
  log <> [] -> exists body, concat (text_line <$> log) = body ++ [10].
Proof.
  induction log as [|m log IH] using rev_ind; [done|]. intros _.
  rewrite fmap_app, concat_app. cbn [fmap list_fmap concat].
  rewrite app_nil_r. destruct (text_line_terminated m) as [b ->].
  eexists. by rewrite app_assoc.
Qed.

Lemma file_lines_export log :
  length (file_lines (concat (text_line <$> log)))
  = (length log + inner_newlines log)%nat.
Proof.
  destruct log as [|m log]; [done|].
  destruct (export_terminated (m :: log)) as [body Hb]; [done|].
  rewrite <- count_nl_export, Hb. unfold file_lines.
  rewrite lines_from_terminated, count_nl_app. change (count_nl [10]) with 1%nat. lia.
Qed.

(** A record without inner newline is one line. *)
Lemma lines_from_record body rest : forall cur,
  10 ∉ body ->
  lines_from cur (body ++ 10 :: rest) = (cur ++ body ++ [10]) :: lines_from [] rest.
Proof.
  induction body as [|c body IH]; intros cur Hb; simpl.
  - done.
  - apply not_elem_of_cons in Hb as [Hc Hb].
    destruct (N.eqb_spec c 10); [done|].
    rewrite IH by done. by rewrite <- app_assoc.
Qed.

Lemma file_lines_records log :
  inner_newlines log = O ->
  file_lines (concat (text_line <$> log)) = text_line <$> log.
Proof.
  unfold file_lines.
  induction log as [|m log IH]; [done|]. cbn [fmap list_fmap concat inner_newlines].
  change (list_fmap ?A ?B ?f ?l) with (f <$> l).
  intros H.
  assert (count_nl (sender m) + count_nl (content m) = 0)%nat as Hm by lia.
  destruct (text_line_terminated m) as [body Hrec].
  assert (10 ∉ body) as Hbody.
  { apply count_nl_zero. pose proof (count_nl_text_line m) as Hc.
    rewrite Hrec, count_nl_app in Hc. change (count_nl [10]) with 1%nat in Hc. lia. }
  rewrite Hrec at 1. rewrite <- app_assoc. cbn [app].
  rewrite lines_from_record by done. cbn [app]. rewrite <- Hrec.
  f_equal. apply IH. lia.
Qed.

(** * The claims *)

Lemma add_message_messages m s :
  messages (run (add_message m) s).2 = messages s ++ [m].
Proof.
  unfold add_message, new_message_widget. run_simpl.
  by destruct (ChatMessageWidget_new _ _ _).
Qed.

(** C1.  Send on a composer whose trimmed text [t] is not empty appends
    exactly one message, of kind [TEXT], with content [t] and sender
    ["Tú"], and clears the composer; when [t] is empty the log is left as
    it is. *)
Theorem send_message_spec (s : State) (now : datetime) (t : pystr) :
  themes s = Themes_class ->
  trimmed_form (toPlainText (message_input s)) t ->
  let s' := (run (send_message now) s).2 in
  (t <> [] ->
     messages s' = messages s ++ [mk_Message t TEXT (py "Tú") now None]
     /\ toPlainText (message_input s') = [])
  /\ (t = [] -> messages s' = messages s).
Proof.
  intros Hh Ht%strip_unique. cbn zeta. split.
  - intros Hne. rewrite <- Ht in *.
    destruct (send_message_run now s Hh Hne) as [w ->]. by split.
  - intros He. rewrite <- Ht in He. by rewrite send_message_blank.
Qed.

(** C10.  Send on a composer that is empty or all white space changes
    nothing: the composer keeps its text, no shot is scheduled, and
    whatever happens next happens as if Send had not been asked for. *)
Theorem blank_send_is_noop (s : State) (now : datetime) :
  trimmed_form (toPlainText (message_input s)) [] ->
  run (send_message now) s = (Returned tt, s).
Proof. intros Ht%strip_unique. by apply send_message_blank. Qed.

(** C8.  The filter sends, and consumes the event, on a key press of
    Return with exactly the Control modifier in the composer; a key event
    with any other modifier set, none included, is passed on and the state
    is untouched. *)
Theorem eventFilter_spec (obj : QObject) (event : QEvent) (now : datetime) (s : State) :
  (obj = obj_message_input -> event_type event = QEvent_KeyPress ->
   key event = Qt_Key_Return -> modifiers event = Qt_ControlModifier ->
   run (eventFilter obj event now) s = run (send_message now;; mret true) s
   /\ (themes s = Themes_class ->
       (run (eventFilter obj event now) s).1 = Returned true))
  /\ (modifiers event <> Qt_ControlModifier ->
      run (eventFilter obj event now) s = (Returned false, s)).
Proof.
  unfold eventFilter. split.
  - intros -> -> -> ->. split; [reflexivity|]. intros Hh.
    cbn [bool_decide decide_rel]. rewrite bool_decide_eq_true_2 by done.
    cbn [andb N.eqb Pos.eqb QEvent_KeyPress Qt_Key_Return Qt_ControlModifier].
    rewrite run_bind.
    destruct (decide (strip (toPlainText (message_input s)) = [])) as [He|Hne].
    + by rewrite send_message_blank.
    + by destruct (send_message_run now s Hh Hne) as [w ->].
  - intros Hm. destruct (N.eqb_spec (modifiers event) Qt_ControlModifier); [done|].
    rewrite andb_false_r. by destruct (_ && _).
Qed.

(** C2 (the code does otherwise).  A [SYSTEM] message does not get the
    label of a [TEXT] message: it falls into the last branch of
    [setup_ui], written for files, and is shown as the attachment glyph
    followed by the base name of its content, in the accent colour and
    without word wrap. *)
Theorem system_message_rendered_as_attachment
    (c sd : pystr) (ts : datetime) (md : option (gmap pystr pystr))
    (r : ThemeRef) :
  exists w wt accent text,
    ChatMessageWidget_new Themes_class (mk_Message c SYSTEM sd ts md) r = Returned w
    /\ ChatMessageWidget_new Themes_class (mk_Message c TEXT sd ts md) r = Returned wt
    /\ getitem (colors (deref Themes_class r)) "accent" = Returned accent
    /\ getitem (colors (deref Themes_class r)) "text" = Returned text
    /\ content_label w =
       mk_QLabel (py "📎 " ++ basename c) None false (py "color: " ++ accent ++ py ";")
    /\ content_label wt = mk_QLabel c None true (py "color: " ++ text ++ py ";")
    /\ content_label w <> content_label wt.
Proof.
  unfold ChatMessageWidget_new.
  lookup_color r "accent"%string ca Ha.
  lookup_color r "text"%string ct Ht.
  lookup_color r "secondary"%string cs Hs.
  fstr_simpl. rewrite Ha, Ht, Hs. fstr_simpl. cbn [type decide decide_rel].
  do 4 eexists. repeat split; try reflexivity. cbn. rewrite !app_nil_r. discriminate.
Qed.

(** The welcome message of [main] under the initial theme. *)
Example welcome_message_rendering now :
  exists w,
    ChatMessageWidget_new Themes_class (welcome_message now) DARK = Returned w
    /\ label_text (content_label w)
       = py "📎 ¡Bienvenido al chat! Este es un mensaje de sistema."
    /\ label_styleSheet (content_label w) = py "color: #7289DA;"
    /\ label_wordWrap (content_label w) = false.
Proof. eexists. vm_compute. repeat split. Qed.

(** C3 (as amended).  Exporting to a path that ends in [.txt] writes, in
    the order of the log, one record ["[YYYY-MM-DD HH:MM:SS] sender: content"]
    followed by a newline per message and leaves the log alone.  The file
    has as many lines as the log has messages plus the newline characters
    that occur inside senders and contents; when there is none, the i-th
    line is the record of the i-th message. *)
Theorem export_text_spec (s : State) (file_path : pystr) :
  file_path <> [] -> endswith file_path (py ".txt") = true ->
  let s' := (run (save_chat_history file_path) s).2 in
  let data := concat (text_line <$> messages s) in
  files s' !! file_path = Some data
  /\ messages s' = messages s
  /\ length (file_lines data) = (length (messages s) + inner_newlines (messages s))%nat
  /\ (inner_newlines (messages s) = O -> file_lines data = text_line <$> messages s)
  /\ (forall m, text_line m =
                py "[" ++ strftime_YmdHMS (timestamp m) ++ py "] "
                ++ sender m ++ py ": " ++ content m ++ [10])
  /\ (forall t, length (strftime_YmdHMS t) = 19%nat).
Proof.
  intros Hne Htxt. cbn zeta. rewrite save_text_run by done. cbn [snd].
  split; [destruct s; apply lookup_insert_eq|].
  split; [by destruct s|].
  split; [apply file_lines_export|].
  split; [apply file_lines_records|]. split; reflexivity.
Qed.

(** C6.  In every state the program reaches, choosing a theme a second
    time changes nothing, and choosing a theme leaves the log as it is. *)
Theorem apply_theme_idempotent (lower_full : pystr -> pystr -> N -> pystr) (now : datetime)
    (evs : list Event) (theme : ThemeRef) :
  let s := run_events lower_full evs (main now) in
  let s1 := dispatch lower_full s (theme_action_triggered theme) in
  dispatch lower_full s1 (theme_action_triggered theme) = s1
  /\ styleSheet (dispatch lower_full s1 (theme_action_triggered theme)) = styleSheet s1
  /\ messages_layout (dispatch lower_full s1 (theme_action_triggered theme))
     = messages_layout s1
  /\ messages s1 = messages s.
Proof.
  cbn zeta.
  destruct (run_events_reached lower_full evs (main now) (main_reached now))
    as (Hh & Hl & _).
  set (s := run_events lower_full evs (main now)) in *.
  destruct (nonempty_last _ Hl) as (pre & x & Hpre).
  destruct (apply_theme_run theme) as [ss Hrun].
  destruct (Hrun s pre x Hh Hpre) as (ws & Hws & Hs1).
  assert (dispatch lower_full s (theme_action_triggered theme)
          = set_deferred_delete []
              (set_messages_layout ((WidgetItem <$> ws) ++ [x])
                 (set_styleSheet ss (set_current_theme theme s)))) as E1.
  { unfold dispatch. cbn [slot]. rewrite Hs1. by destruct s. }
  rewrite E1.
  set (s1 := set_deferred_delete [] _) in *.
  destruct (Hrun s1 (WidgetItem <$> ws) x) as (ws' & Hws' & Hs2);
    [by destruct s | by destruct s |].
  assert (ws' = ws) as ->.
  { assert (messages s1 = messages s) as Hm by (by destruct s).
    rewrite Hm, Hws in Hws'. by injection Hws'. }
  assert (dispatch lower_full s1 (theme_action_triggered theme) = s1) as E2.
  { unfold dispatch. cbn [slot]. rewrite Hs2. unfold s1. by destruct s. }
  rewrite E2. repeat split; by destruct s.
Qed.

(** C7 (the code does otherwise).  After the first theme switch the
    timeline no longer mirrors the log: [refresh_messages] takes items
    from the front while more than one is left, so it removes the stretch
    and keeps the last widget, and the welcome message is shown twice, the
    second time in the colours of the old theme. *)
Theorem theme_switch_keeps_stale_widget (lower_full : pystr -> pystr -> N -> pystr)
    (now : datetime) (theme : ThemeRef) :
  let s := dispatch lower_full (main now) (theme_action_triggered theme) in
  messages s = [welcome_message now]
  /\ timeline s = [welcome_message now; welcome_message now]
  /\ timeline s <> messages s
  /\ exists w1 w2,
       messages_layout s = [WidgetItem w1; WidgetItem w2]
       /\ self_theme w1 = theme /\ self_theme w2 = DARK.
Proof.
  cbn zeta.
  destruct (main_layout now) as (w & Hl & Hwm & Hwt).
  destruct (apply_theme_run theme) as [ss Hrun].
  destruct (Hrun (main now) [SpacerItem] (WidgetItem w) (main_themes now) Hl)
    as (ws & Hws & Hs1).
  destruct (render_all_total theme (messages (main now))) as (ws' & Hws' & Hm & Hr).
  rewrite Hws in Hws'. injection Hws' as <-.
  rewrite main_messages in Hm.
  destruct ws as [|w1 [|? ?]]; try discriminate Hm.
  injection Hm as Hm. apply Forall_inv in Hr.
  unfold dispatch. cbn [slot]. rewrite Hs1.
  assert (forall s', messages (set_deferred_delete [] s') = messages s') as Em
    by (by intros []).
  assert (forall s', messages_layout (set_deferred_delete [] s') = messages_layout s')
    as El by (by intros []).
  unfold timeline. rewrite Em, El. clear Em El. cbn [snd].
  assert (forall l d ss t s0,
    messages_layout (set_messages_layout l (set_deferred_delete d
       (set_styleSheet ss (set_current_theme t s0)))) = l) as El by (by intros ? ? ? ? []).
  assert (forall l d ss t s0,
    messages (set_messages_layout l (set_deferred_delete d
       (set_styleSheet ss (set_current_theme t s0)))) = messages s0) as Em
    by (by intros ? ? ? ? []).
  rewrite El, Em, main_messages. cbn. rewrite Hm, Hwm.
  split; [done|]. split; [done|]. split; [discriminate|]. eauto.
Qed.

Lemma image_suffix_shape e :
  e ∈ image_suffixes ->
  exists p, e = 46 :: p /\ (46 ∉ p) /\ Forall plain e /\ map ascii_lower e = e.
Proof.
  unfold image_suffixes. vm_compute py. intros H.
  repeat (apply elem_of_cons in H as [->|H]); [..|by apply elem_of_nil in H];
    (eexists; split; [reflexivity|]; split; [|split; [|reflexivity]]).
  all: try (intros Hin;
            repeat (apply elem_of_cons in Hin as [Hin|Hin]; [discriminate Hin|]);
            by apply elem_of_nil in Hin).
  all: repeat constructor; unfold plain; lia.
Qed.

Section AttachFile.

Variable lower_full : pystr -> pystr -> N -> pystr.

(** What is used of the Unicode lower-case mapping: outside ASCII, the
    lower-case form of a code point is not empty and ends outside ASCII or
    with [k] (the Kelvin sign).  The dotted capital I, whose lower-case
    form starts with [i], ends with a combining dot. *)
Hypothesis lower_full_last :
  forall before after c, 128 <= c ->
    exists l x, lower_full before after c = l ++ [x] /\ (128 <= x \/ x = 107).

Lemma image_check_extension file_path :
  endswith_any (lower lower_full file_path) image_suffixes = true <->
  exists e, e ∈ image_suffixes /\ same_ignoring_case (path_extension file_path) e.
Proof.
  unfold endswith_any, same_ignoring_case. rewrite existsb_exists.
  split; intros (e & He & H); exists e.
  - apply list_elem_of_In in He. split; [done|].
    destruct (image_suffix_shape e He) as (p & -> & Hp & Hpl & ->).
    apply dotted_suffix_extension; [done|].
    by apply (endswith_lower_iff lower_full lower_full_last).
  - split; [by apply list_elem_of_In|].
    destruct (image_suffix_shape e He) as (p & -> & Hp & Hpl & Hlow).
    rewrite Hlow in H.
    apply (endswith_lower_iff lower_full lower_full_last); [done|].
    by apply dotted_suffix_extension.
Qed.

(** C4.  Attaching a file with a non-empty path appends one message whose
    content is the path; its kind is [IMAGE] exactly when the extension of
    the path is, up to the case of its letters, one of [.png], [.jpg],
    [.jpeg], [.gif], and [FILE] otherwise.  A cancelled picker, which
    gives the empty path, changes nothing. *)
Theorem select_file_spec (s : State) (file_path : pystr) (now : datetime) :
  let s' := (run (select_file lower_full file_path now) s).2 in
  (file_path <> [] ->
   exists m,
     messages s' = messages s ++ [m]
     /\ content m = file_path /\ sender m = py "Tú" /\ timestamp m = now
     /\ (type m = IMAGE <->
         exists e, e ∈ image_suffixes
                   /\ same_ignoring_case (path_extension file_path) e)
     /\ (type m <> IMAGE -> type m = FILE))
  /\ (file_path = [] ->
      run (select_file lower_full file_path now) s = (Returned tt, s)).
Proof.
  cbn zeta. unfold select_file. split.
  - intros Hne. rewrite bool_decide_eq_true_2 by done.
    rewrite add_message_messages. eexists. split; [reflexivity|].
    cbn [content sender timestamp type]. repeat split.
    + intros Ht. apply image_check_extension.
      by destruct (endswith_any _ _).
    + intros He%image_check_extension. by rewrite He.
    + by destruct (endswith_any _ _).
  - intros ->. reflexivity.
Qed.

End AttachFile.

(** The lower-case table used to run the model meets the assumption. *)
Lemma lower_full_sample_last before after c :
  128 <= c ->
  exists l x, lower_full_sample before after c = l ++ [x] /\ (128 <= x \/ x = 107).
Proof.
  intros Hc. unfold lower_full_sample.
  destruct (N.eqb_spec c 304); [exists [105], 775; split; [done|lia]|].
  destruct (N.eqb_spec c 8490); [exists [], 107; split; [done|lia]|].
  destruct (N.eqb_spec c 931).
  { destruct after as [|d ?]; [|destruct (is_letter d)];
      (eexists [], _; split; [reflexivity|lia]). }
  destruct (_ && _); [exists [], (c + 32); split; [done|lia]|].
  destruct (_ && _); [exists [], (c + 32) | exists [], c]; split; try done; lia.
Qed.

(** ** The log only grows *)

Lemma log_step_prefix s s' : log_step s s' -> messages s `prefix_of` messages s'.
Proof.
  intros [Hm _ | m Hm _ _ _ | m Hm _ _ _ | m Hm _ _ _]; rewrite Hm;
    [done | by apply prefix_app_r ..].
Qed.

Lemma log_append_only lower_full s ev :
  themes s = Themes_class ->
  messages (dispatch lower_full s ev) = messages s
  \/ exists m, messages (dispatch lower_full s ev) = messages s ++ [m].
Proof.
  intros Hh.
  destruct (dispatch_log_step lower_full s ev Hh)
    as [Hm _ | m Hm _ _ _ | m Hm _ _ _ | m Hm _ _ _]; eauto.
Qed.

Lemma run_events_prefix lower_full evs s :
  themes s = Themes_class ->
  messages s `prefix_of` messages (run_events lower_full evs s).
Proof.
  revert s. induction evs as [|ev evs IH]; intros s Hh; simpl; [done|].
  etrans; [apply log_step_prefix, (dispatch_log_step lower_full s ev Hh)|].
  apply IH. by rewrite dispatch_themes.
Qed.

(** C5.  A successful Send schedules exactly one shot.  When a pending
    shot fires, exactly one message is appended: its content is one of the
    five responses, its sender is ["Usuario 1"], and it comes after the
    message of the Send.  Throughout, replies and pending shots add up to
    the sends, and no part of the log has more replies than sends. *)
Theorem auto_reply_spec (lower_full : pystr -> pystr -> N -> pystr) (now0 now1 now2 : datetime)
    (evs evs' : list Event) (r : nat) :
  let s := run_events lower_full evs (main now0) in
  let s1 := dispatch lower_full s (send_button_clicked now1) in
  let t := run_events lower_full evs' s1 in
  let t' := dispatch lower_full t (single_shot_timeout now2 r) in
  let sent := mk_Message (strip (toPlainText (message_input s))) TEXT (py "Tú") now1 None in
  strip (toPlainText (message_input s)) <> [] ->
  (0 < single_shots t)%nat ->
  length responses = 5%nat
  /\ messages s1 = messages s ++ [sent]
  /\ single_shots s1 = S (single_shots s)
  /\ (exists reply,
        messages t' = messages t ++ [reply]
        /\ content reply ∈ responses
        /\ sender reply = py "Usuario 1"
        /\ type reply = TEXT
        /\ S (single_shots t') = single_shots t
        /\ messages t' !! length (messages s) = Some sent
        /\ (length (messages s) < length (messages t))%nat)
  /\ balanced (messages t') (single_shots t').
Proof.
  cbn zeta. intros Hne Hpos.
  pose proof (run_events_reached lower_full evs (main now0) (main_reached now0))
    as Hs.
  set (s := run_events lower_full evs (main now0)) in *.
  destruct Hs as (Hh & _).
  destruct (send_message_run now1 s Hh Hne) as [w Hsend].
  assert (messages (dispatch lower_full s (send_button_clicked now1))
          = messages s ++ [mk_Message (strip (toPlainText (message_input s)))
                                      TEXT (py "Tú") now1 None]) as Hm1.
  { unfold dispatch. cbn [slot]. rewrite Hsend. by destruct s. }
  assert (single_shots (dispatch lower_full s (send_button_clicked now1))
          = S (single_shots s)) as Hp1.
  { unfold dispatch. cbn [slot]. rewrite Hsend. by destruct s. }
  set (s1 := dispatch lower_full s (send_button_clicked now1)) in *.
  assert (reached s1) as Hs1
    by (apply dispatch_reached, run_events_reached, main_reached).
  pose proof (run_events_reached lower_full evs' s1 Hs1) as Ht.
  pose proof (run_events_prefix lower_full evs' s1 (proj1 Hs1)) as Hpre.
  set (t := run_events lower_full evs' s1) in *.
  destruct Ht as (Hth & Htl & Htb).
  split; [reflexivity|]. split; [done|]. split; [done|]. split.
  - destruct (single_shots t) as [|n] eqn:Hn; [lia|].
    destruct (single_shot_fires_run now2 r t n Hth Hn) as (resp & w' & Hin & Hrun).
    exists (mk_Message resp TEXT (py "Usuario 1") now2 None).
    unfold dispatch. cbn [slot]. rewrite Hrun. cbn [snd].
    destruct Hpre as [k Hk]. rewrite Hm1 in Hk.
    assert (messages (set_deferred_delete []
              (set_tray_shown
                 (tray_shown t ++
                  [mk_TrayMessage (py "Nuevo mensaje") (py "Usuario 1: " ++ resp) Information 2000])
                 (set_messages_layout (messages_layout t ++ [WidgetItem w'])
                    (set_messages
                       (messages t ++ [mk_Message resp TEXT (py "Usuario 1") now2 None])
                       (set_single_shots n t)))))
            = messages t ++ [mk_Message resp TEXT (py "Usuario 1") now2 None]) as ->
      by (by destruct t).
    repeat split; try done.
    + rewrite Hk, <- !app_assoc. rewrite lookup_app_r by lia.
      by rewrite Nat.sub_diag.
    + rewrite Hk, !length_app. simpl. lia.
  - apply (dispatch_reached lower_full t (single_shot_timeout now2 r)).
    by split.
Qed.

(** C9.  No event changes the three [Theme] objects: after any turn of
    the event loop the heap of themes is what it was, so in every state
    the program reaches it is what the class body of [Themes] built.  A
    theme switch sets the reference [current_theme] (and, since this
    comes first, does so whatever follows) and leaves the log, the
    composer, the pending shots and the files as they are. *)
Theorem themes_never_mutated (lower_full : pystr -> pystr -> N -> pystr) :
  (forall s ev, themes (dispatch lower_full s ev) = themes s)
  /\ (forall now evs, themes (run_events lower_full evs (main now)) = Themes_class)
  /\ (forall s theme,
        let s' := dispatch lower_full s (theme_action_triggered theme) in
        current_theme s' = theme
        /\ messages s' = messages s
        /\ message_input s' = message_input s
        /\ single_shots s' = single_shots s
        /\ files s' = files s).
Proof.
  split; [apply dispatch_themes|]. split.
  - intros now evs. rewrite run_events_themes. apply main_themes.
  - intros s theme. cbn zeta. unfold dispatch. cbn [slot].
    assert (stable (fun s' => current_theme s' = theme
                              /\ messages s' = messages s
                              /\ message_input s' = message_input s
                              /\ single_shots s' = single_shots s
                              /\ files s' = files s)
              (h ← get themes;
               ss ← lift (window_styleSheet (colors (deref h theme)));
               modify (set_styleSheet ss);; refresh_messages)) as Hst.
    { unfold refresh_messages, new_message_widget. stable_auto. }
    assert (run (apply_theme theme) s
            = run (h ← get themes;
                   ss ← lift (window_styleSheet (colors (deref h theme)));
                   modify (set_styleSheet ss);; refresh_messages)
                  (set_current_theme theme s)) as -> by reflexivity.
    specialize (Hst (set_current_theme theme s)).
    destruct (run _ (set_current_theme theme s)) as [res []].
    apply Hst. by destruct s.
Qed.

(** * The statements at concrete inputs *)

Lemma send_message_spec_witness :
  let s := sample_typed (py "  hola ") in
  let s' := (run (send_message sample_now) s).2 in
  themes s = Themes_class
  /\ trimmed_form (toPlainText (message_input s)) (py "hola")
  /\ messages s' = messages s ++ [mk_Message (py "hola") TEXT (py "Tú") sample_now None]
  /\ toPlainText (message_input s') = [].
Proof.
  cbn zeta.
  assert (themes (sample_typed (py "  hola ")) = Themes_class) as Hh
    by (vm_compute; reflexivity).
  assert (trimmed_form (toPlainText (message_input (sample_typed (py "  hola "))))
            (py "hola")) as Ht.
  { exists (py "  "), (py " ").
    repeat split; try (vm_compute; reflexivity); intros c [= <-]; reflexivity. }
  destruct (send_message_spec (sample_typed (py "  hola ")) sample_now (py "hola") Hh Ht)
    as [H _].
  destruct H as [H1 H2]; [vm_compute; discriminate|].
  repeat split; assumption.
Defined.

Lemma blank_send_is_noop_witness :
  let s := sample_typed (py "   ") in
  trimmed_form (toPlainText (message_input s)) []
  /\ run (send_message sample_now) s = (Returned tt, s).
Proof.
  cbn zeta.
  assert (trimmed_form (toPlainText (message_input (sample_typed (py "   ")))) [])
    as Ht.
  { exists (py "   "), []. repeat split; try (vm_compute; reflexivity); discriminate. }
  split; [exact Ht|].
  exact (blank_send_is_noop (sample_typed (py "   ")) sample_now Ht).
Defined.

Lemma eventFilter_spec_witness :
  let s := sample_typed (py "hola") in
  let ctrl_return := mk_QEvent QEvent_KeyPress Qt_Key_Return Qt_ControlModifier in
  let plain_return := mk_QEvent QEvent_KeyPress Qt_Key_Return Qt_NoModifier in
  run (eventFilter obj_message_input ctrl_return sample_now) s
  = run (send_message sample_now;; mret true) s
  /\ (run (eventFilter obj_message_input ctrl_return sample_now) s).1 = Returned true
  /\ run (eventFilter obj_message_input plain_return sample_now) s = (Returned false, s).
Proof.
  cbn zeta.
  destruct (eventFilter_spec obj_message_input
              (mk_QEvent QEvent_KeyPress Qt_Key_Return Qt_ControlModifier)
              sample_now (sample_typed (py "hola"))) as [H _].
  destruct (H eq_refl eq_refl eq_refl eq_refl) as [H1 H2].
  destruct (eventFilter_spec obj_message_input
              (mk_QEvent QEvent_KeyPress Qt_Key_Return Qt_NoModifier)
              sample_now (sample_typed (py "hola"))) as [_ H3].
  split; [exact H1|]. split.
  - apply H2. vm_compute. reflexivity.
  - apply H3. vm_compute. discriminate.
Defined.

(** C3 as stated fails: a message typed on two lines is exported as two
    lines, so the file has more lines than the log has messages. *)
Lemma export_line_count_counterexample :
  let s := dispatch lower_full_sample
             (sample_typed (py "uno" ++ nl ++ py "dos"))
             (send_button_clicked sample_now) in
  let s' := dispatch lower_full_sample s (save_chat_triggered (py "chat.txt")) in
  exists data,
    files s' !! py "chat.txt" = Some data
    /\ length (messages s) = 2%nat
    /\ length (file_lines data) = 3%nat
    /\ length (file_lines data) <> length (messages s).
Proof. cbn zeta. eexists. vm_compute. repeat split. discriminate. Qed.

Lemma export_text_spec_witness :
  let s := dispatch lower_full_sample (sample_typed (py "hola"))
             (send_button_clicked sample_now) in
  let s' := (run (save_chat_history (py "chat.txt")) s).2 in
  py "chat.txt" <> []
  /\ endswith (py "chat.txt") (py ".txt") = true
  /\ files s' !! py "chat.txt" = Some (concat (text_line <$> messages s))
  /\ file_lines (concat (text_line <$> messages s)) =
     [ py "[2024-05-17 09:03:07] Sistema: ¡Bienvenido al chat! Este es un mensaje de sistema." ++ nl;
       py "[2024-05-17 09:04:30] Tú: hola" ++ nl ].
Proof.
  cbn zeta.
  assert (py "chat.txt" <> []) as Hne by (vm_compute; discriminate).
  assert (endswith (py "chat.txt") (py ".txt") = true) as Htxt
    by (vm_compute; reflexivity).
  destruct (export_text_spec
              (dispatch lower_full_sample (sample_typed (py "hola"))
                 (send_button_clicked sample_now))
              (py "chat.txt") Hne Htxt) as (H1 & _ & _ & H4 & _).
  split; [exact Hne|]. split; [exact Htxt|]. split; [exact H1|].
  rewrite H4 by (vm_compute; reflexivity). vm_compute. reflexivity.
Defined.

Lemma select_file_spec_witness :
  let s' := (run (select_file lower_full_sample (py "/home/u/foto.PNG") sample_now)
               (main sample_start)).2 in
  (forall before after c, 128 <= c ->
     exists l x, lower_full_sample before after c = l ++ [x]
                 /\ (128 <= x \/ x = 107))
  /\ exists m, messages s' = messages (main sample_start) ++ [m] /\ type m = IMAGE.
Proof.
  cbn zeta. split; [exact lower_full_sample_last|].
  destruct (select_file_spec lower_full_sample lower_full_sample_last
              (main sample_start) (py "/home/u/foto.PNG") sample_now) as [H _].
  destruct H as (m & Hm & _ & _ & _ & Hty & _); [vm_compute; discriminate|].
  exists m. split; [exact Hm|]. apply Hty.
  exists (py ".png"). split; [apply list_elem_of_here | vm_compute; reflexivity].
Defined.

Lemma auto_reply_spec_witness :
  let s := run_events lower_full_sample [composer_edited (py "hola") 4]
             (main sample_start) in
  let s1 := dispatch lower_full_sample s (send_button_clicked sample_now) in
  let t' := dispatch lower_full_sample s1 (single_shot_timeout sample_now 7) in
  strip (toPlainText (message_input s)) <> []
  /\ (0 < single_shots s1)%nat
  /\ single_shots s1 = S (single_shots s)
  /\ exists reply,
       messages t' = messages s1 ++ [reply]
       /\ content reply ∈ responses /\ sender reply = py "Usuario 1".
Proof.
  cbn zeta.
  assert (strip (toPlainText (message_input
            (run_events lower_full_sample [composer_edited (py "hola") 4]
               (main sample_start)))) <> []) as Hne by (vm_compute; discriminate).
  assert (0 < single_shots
            (run_events lower_full_sample []
               (dispatch lower_full_sample
                  (run_events lower_full_sample [composer_edited (py "hola") 4]
                     (main sample_start))
                  (send_button_clicked sample_now))))%nat as Hpos
    by (vm_compute; lia).
  destruct (auto_reply_spec lower_full_sample sample_start sample_now sample_now
              [composer_edited (py "hola") 4] [] 7 Hne Hpos)
    as (_ & _ & Hp & (reply & Hm & Hc & Hs & _) & _).
  split; [exact Hne|]. split; [exact Hpos|]. split; [exact Hp|].
  exists reply. repeat split; assumption.
Defined.

(** * Further properties *)

(** ** One event at a time *)

Lemma strip_strip s : strip (strip s) = strip s.
Proof.
  apply strip_unique. destruct (strip_trimmed s) as (a & b & _ & _ & _ & Hh & Hl).
  exists [], []. rewrite app_nil_r. by repeat split.
Qed.

Lemma slot_silent lower_full ev v l n c :
  match ev with
  | send_button_clicked _ | file_btn_clicked _ _ | single_shot_timeout _ _
  | event_filtered _ _ _ | theme_action_triggered _ => False
  | _ => True
  end ->
  stable (fun s => messages s = v /\ messages_layout s = l
                   /\ tray_shown s = n /\ current_theme s = c)
         (slot lower_full ev).
Proof.
  destruct ev; intros []; unfold_methods; stable_auto.
Qed.

Lemma grows_flush s s' : grows s s' -> grows s (set_deferred_delete [] s').
Proof.
  intros [? ? ? ? | m w ? ? ? ? ? ? ?];
    [apply grows_none | eapply (grows_one _ _ m w)]; by destruct s'.
Qed.

Lemma send_message_grows now s :
  themes s = Themes_class -> grows s (run (send_message now) s).2.
Proof.
  intros Hh.
  destruct (decide (strip (toPlainText (message_input s)) = [])) as [He|Hne].
  - rewrite send_message_blank by done. by apply grows_none.
  - unfold send_message. run_simpl. rewrite bool_decide_eq_true_2 by done.
    run_steps.
    match goal with |- context [add_message ?m] =>
      destruct (add_message_run m s Hh) as (w & Hw & ->) end.
    destruct (widget_total
                (mk_Message (strip (toPlainText (message_input s))) TEXT
                            (py "Tú") now None) (current_theme s))
      as (w' & Hw' & Hm & Ht).
    rewrite Hw in Hw'. injection Hw' as <-.
    eapply (grows_one _ _ _ w); try (by destruct s); try done.
    left. split; [|by destruct s].
    repeat split; try done. cbn [content]. apply strip_strip.
Qed.

Lemma dispatch_grows lower_full s ev :
  themes s = Themes_class -> is_theme_switch ev = false ->
  grows s (dispatch lower_full s ev).
Proof.
  intros Hh Hev. unfold dispatch. apply grows_flush.
  destruct ev as [now| |file_path now|i|theme|file_path|now r|obj event now|text pos|];
    try discriminate Hev;
    try (match goal with
         | |- grows _ (run (slot _ ?e) _).2 =>
           pose proof (slot_silent lower_full e (messages s) (messages_layout s)
                         (tray_shown s) (current_theme s) I s
                         (conj eq_refl (conj eq_refl (conj eq_refl eq_refl))))
             as (? & ? & ? & ?)
         end; by apply grows_none).
  - by apply send_message_grows.
  - (* attach *)
    cbn [slot]. unfold select_file.
    destruct (decide (file_path = [])) as [->|Hne]; [by apply grows_none|].
    rewrite bool_decide_eq_true_2 by done.
    match goal with |- context [add_message ?m] =>
      destruct (add_message_run m s Hh) as (w & Hw & ->);
      destruct (widget_total m (current_theme s)) as (w' & Hw' & Hm & Ht) end.
    rewrite Hw in Hw'. injection Hw' as <-.
    eapply (grows_one _ _ _ w); try (by destruct s); try done.
    right. left. split; [|by destruct s].
    repeat split; try done. cbn [type]. destruct (negb _); [by left | by right].
  - (* timer *)
    cbn [slot]. destruct (single_shots s) as [|n] eqn:Hn.
    + rewrite single_shot_fires_idle by done. by apply grows_none.
    + unfold single_shot_fires. run_steps. rewrite Hn. run_steps.
      unfold simulate_response. run_steps.
      destruct (random_choice_responses r) as (resp & -> & Hin). run_steps.
      match goal with |- context [add_message ?m] =>
        destruct (add_message_run m (set_single_shots n s)) as (w & Hw & ->);
          [by destruct s|];
        destruct (widget_total m (current_theme s)) as (w' & Hw' & Hm & Ht) end.
      assert (current_theme (set_single_shots n s) = current_theme s) as Hc
        by (by destruct s).
      rewrite Hc in Hw. rewrite Hw in Hw'. injection Hw' as <-.
      eapply (grows_one _ _ _ w); try (by destruct s); try done.
      right. right. split; [by repeat split | by destruct s].
  - (* key filter *)
    cbn [slot]. unfold eventFilter.
    destruct (_ && _); [|by apply grows_none].
    destruct (_ && _); [|by apply grows_none].
    run_steps.
    pose proof (send_message_grows now s Hh) as H.
    destruct (run (send_message now) s) as [[[]|e] s']; exact H.
Qed.

Lemma dispatch_rethemed lower_full s theme :
  themes s = Themes_class -> messages_layout s <> [] ->
  rethemed theme s (dispatch lower_full s (theme_action_triggered theme)).
Proof.
  intros Hh Hl. destruct (nonempty_last _ Hl) as (pre & x & Hpre).
  destruct (apply_theme_run theme) as [ss Hrun].
  destruct (Hrun s pre x Hh Hpre) as (ws & Hws & Hs1).
  destruct (render_all_total theme (messages s)) as (ws' & Hws' & Hm & Hr).
  rewrite Hws in Hws'. injection Hws' as <-.
  unfold dispatch. cbn [slot]. rewrite Hs1.
  eapply (rethemed_intro _ _ _ pre x ws); try done; by destruct s.
Qed.

(** ** Invariants of the event loop *)

Lemma run_events_invariant lower_full (P : State -> Prop) now :
  P (main now) ->
  (forall s ev, reached s -> P s -> P (dispatch lower_full s ev)) ->
  forall evs, P (run_events lower_full evs (main now)).
Proof.
  intros H0 Hstep evs.
  assert (forall s, reached s -> P s -> P (run_events lower_full evs s)) as H.
  { induction evs as [|ev evs IH]; intros s Hr Hs; simpl; [done|].
    apply IH; [by apply dispatch_reached | by apply Hstep]. }
  apply H; [apply main_reached | done].
Qed.

Lemma dispatch_cases lower_full s ev :
  reached s ->
  grows s (dispatch lower_full s ev)
  \/ exists theme, ev = theme_action_triggered theme
                   /\ rethemed theme s (dispatch lower_full s ev).
Proof.
  intros (Hh & Hl & _). destruct (is_theme_switch ev) eqn:E.
  - right. destruct ev; try discriminate E. eexists. split; [done|].
    by apply dispatch_rethemed.
  - left. by apply dispatch_grows.
Qed.

Lemma entry_not_peer m :
  user_text m \/ attachment m -> from_peer m = false.
Proof.
  unfold from_peer. intros [(_ & Hs & _)|(_ & Hs & _)]; rewrite Hs; reflexivity.
Qed.

Lemma auto_reply_peer m : auto_reply m -> from_peer m = true.
Proof. unfold from_peer. intros (_ & -> & _). reflexivity. Qed.

(** X1.  The log of every state the program reaches starts with the
    welcome message, and each later entry is a text of the user that is
    not empty and has no white space at its ends, an attachment of the
    user with a non-empty path, or one of the five canned replies of
    ["Usuario 1"].  No entry carries metadata. *)
Theorem log_entries (lower_full : pystr -> pystr -> N -> pystr)
    (now : datetime) (evs : list Event) :
  exists rest,
    messages (run_events lower_full evs (main now)) = welcome_message now :: rest
    /\ Forall (fun m => user_text m \/ attachment m \/ auto_reply m) rest
    /\ Forall (fun m => metadata m = None) (welcome_message now :: rest).
Proof.
  apply (run_events_invariant lower_full
    (fun s => exists rest, messages s = welcome_message now :: rest
       /\ Forall (fun m => user_text m \/ attachment m \/ auto_reply m) rest
       /\ Forall (fun m => metadata m = None) (welcome_message now :: rest))).
  - exists []. rewrite main_messages. repeat split; by repeat constructor.
  - intros s ev Hr (rest & Hm & Hrest & Hmd).
    destruct (dispatch_cases lower_full s ev Hr)
      as [[Hm' _ _ _ | m w Hm' _ _ _ _ Hnone Hkind] | (theme & _ & [])].
    + exists rest. by rewrite Hm'.
    + exists (rest ++ [m]). rewrite Hm', Hm. split; [done|]. split.
      * apply Forall_app. split; [done|]. constructor; [|done]. tauto.
      * rewrite app_comm_cons. apply Forall_app. split; [done|]. by constructor.
    + exists rest. split; [congruence|done].
Qed.

(** X2.  In every state the program reaches, the notifications shown are,
    in order, one per reply of ["Usuario 1"] in the log, each titled
    ["Nuevo mensaje"] and carrying the text of its reply. *)
Theorem notifications_mirror_replies (lower_full : pystr -> pystr -> N -> pystr)
    (now : datetime) (evs : list Event) :
  let s := run_events lower_full evs (main now) in
  tray_shown s = notification <$> filter from_peer (messages s).
Proof.
  cbn zeta. apply (run_events_invariant lower_full
    (fun s => tray_shown s = notification <$> filter from_peer (messages s))).
  - vm_compute. reflexivity.
  - intros s ev Hr Hs.
    destruct (dispatch_cases lower_full s ev Hr)
      as [[Hm' _ Ht _ | m w Hm' _ _ _ _ _ Hkind] | (theme & _ & [])].
    + by rewrite Hm', Ht.
    + rewrite Hm', filter_app, fmap_app, filter_cons, filter_nil.
      destruct Hkind as [[Hk ->] | [[Hk ->] | [Hk ->]]].
      * rewrite (entry_not_peer m) by tauto. simpl. by rewrite app_nil_r.
      * rewrite (entry_not_peer m) by tauto. simpl. by rewrite app_nil_r.
      * rewrite (auto_reply_peer m) by done. simpl. by rewrite Hs.
    + congruence.
Qed.

Lemma timeline_app_widget (l : list QLayoutItem) w :
  self_message <$> omap item_widget (l ++ [WidgetItem w])
  = (self_message <$> omap item_widget l) ++ [self_message w].
Proof. by rewrite omap_app, fmap_app. Qed.

Lemma omap_widgets (ws : list ChatMessageWidget) :
  omap item_widget (WidgetItem <$> ws) = ws.
Proof. induction ws as [|w ws IH]; [done|]. cbn. by f_equal. Qed.

(** X3.  As long as no theme has been chosen from the menu, the timeline
    shows exactly the log: the layout is the stretch followed by one
    widget per message, in the order of the log, each rendered under the
    initial Dark theme. *)
Theorem timeline_mirrors_log_before_switch
    (lower_full : pystr -> pystr -> N -> pystr) (now : datetime) (evs : list Event) :
  forallb (fun ev => negb (is_theme_switch ev)) evs = true ->
  let s := run_events lower_full evs (main now) in
  timeline s = messages s
  /\ exists ws, messages_layout s = SpacerItem :: (WidgetItem <$> ws)
                /\ Forall (fun w => self_theme w = DARK) ws.
Proof.
  intros Hevs. cbn zeta.
  assert (forall s,
    reached s -> current_theme s = DARK ->
    (exists ws, messages_layout s = SpacerItem :: (WidgetItem <$> ws)
                /\ self_message <$> ws = messages s
                /\ Forall (fun w => self_theme w = DARK) ws) ->
    let s' := run_events lower_full evs s in
    exists ws, messages_layout s' = SpacerItem :: (WidgetItem <$> ws)
               /\ self_message <$> ws = messages s'
               /\ Forall (fun w => self_theme w = DARK) ws) as H.
  { induction evs as [|ev evs IH]; intros s Hr Hc Hs; [done|].
    cbn in Hevs. apply andb_true_iff in Hevs as [Hev Hevs].
    apply negb_true_iff in Hev. cbn [run_events foldl].
    destruct Hr as (Hh & Hl & Hb).
    pose proof (dispatch_reached lower_full s ev (conj Hh (conj Hl Hb))) as Hr'.
    apply (IH Hevs _ Hr').
    - destruct (dispatch_grows lower_full s ev Hh Hev)
        as [_ _ _ Hc' | m w _ _ _ _ Hc' _ _]; congruence.
    - destruct Hs as (ws & Hlay & Hmsg & Hth).
      destruct (dispatch_grows lower_full s ev Hh Hev)
        as [Hm' Hl' _ _ | m w Hm' Hl' Hwm Hwt _ _ _].
      + exists ws. by rewrite Hm', Hl'.
      + exists (ws ++ [w]). rewrite Hm', Hl', Hlay. split; [|split].
        * by rewrite fmap_app.
        * rewrite fmap_app, Hmsg. cbn. by rewrite Hwm.
        * apply Forall_app. split; [done|]. constructor; [congruence|done]. }
  destruct (H (main now)) as (ws & Hlay & Hmsg & Hth).
  - apply main_reached.
  - vm_compute. reflexivity.
  - destruct (main_layout now) as (w & Hl & Hwm & Hwt).
    exists [w]. rewrite Hl, main_messages. cbn. rewrite Hwm.
    repeat split. by constructor.
  - split; [|eauto]. unfold timeline. rewrite Hlay. cbn [omap list_omap item_widget].
    change (list_omap ?f ?l) with (omap f l). by rewrite omap_widgets.
Qed.

(** The last item of the layout is always the widget of the last
    message. *)
Lemma last_widget_invariant lower_full now evs :
  let s := run_events lower_full evs (main now) in
  exists pre w, messages_layout s = pre ++ [WidgetItem w]
                /\ last (messages s) = Some (self_message w).
Proof.
  cbn zeta. apply (run_events_invariant lower_full
    (fun s => exists pre w, messages_layout s = pre ++ [WidgetItem w]
                            /\ last (messages s) = Some (self_message w))).
  - destruct (main_layout now) as (w & Hl & Hwm & _).
    exists [SpacerItem], w. by rewrite Hl, main_messages, Hwm.
  - intros s ev Hr (pre & w & Hlay & Hlast).
    destruct (dispatch_cases lower_full s ev Hr)
      as [[Hm' Hl' _ _ | m w' Hm' Hl' Hwm _ _ _ _]
         | (theme & _ & [pre' x ws Hl0 Hl' _ _ Hm' _ _])].
    + exists pre, w. by rewrite Hm', Hl'.
    + exists (messages_layout s), w'. by rewrite Hm', Hl', last_snoc, Hwm.
    + rewrite Hlay in Hl0. apply app_inj_tail in Hl0 as [_ <-].
      exists (WidgetItem <$> ws), w. by rewrite Hm'.
Qed.

(** X4.  Right after a theme is chosen, in whatever state the program has
    reached, the timeline shows the whole log rebuilt under the new theme
    and then, once more, its last message: the widget that was last in
    the layout is not taken out by [refresh_messages]. *)
Theorem timeline_after_theme_switch
    (lower_full : pystr -> pystr -> N -> pystr) (now : datetime)
    (evs : list Event) (theme : ThemeRef) :
  let s := run_events lower_full evs (main now) in
  let s' := dispatch lower_full s (theme_action_triggered theme) in
  exists m ws stale,
    last (messages s) = Some m
    /\ timeline s' = messages s ++ [m]
    /\ messages_layout s' = (WidgetItem <$> ws) ++ [WidgetItem stale]
    /\ Forall (fun w => self_theme w = theme) ws
    /\ last (messages_layout s) = Some (WidgetItem stale).
Proof.
  cbn zeta.
  pose proof (run_events_reached lower_full evs (main now) (main_reached now))
    as (Hh & Hl & _).
  destruct (last_widget_invariant lower_full now evs) as (pre & w & Hlay & Hlast).
  cbn zeta in Hlay, Hlast.
  set (s := run_events lower_full evs (main now)) in *.
  destruct (dispatch_rethemed lower_full s theme Hh Hl)
    as [pre' x ws Hl0 Hl' Hws Hth _ _ _].
  rewrite Hlay in Hl0. apply app_inj_tail in Hl0 as [_ <-].
  exists (self_message w), ws, w. split; [done|]. split.
  - unfold timeline. rewrite Hl', timeline_app_widget, omap_widgets. by rewrite Hws.
  - split; [done|]. split; [done|]. by rewrite Hlay, last_snoc.
Qed.

(** X5.  The last theme chosen wins: choosing a theme and then another
    leaves the program in the state that choosing the second alone would
    have given, style sheet and widgets included. *)
Theorem last_theme_wins (lower_full : pystr -> pystr -> N -> pystr)
    (now : datetime) (evs : list Event) (theme1 theme2 : ThemeRef) :
  let s := run_events lower_full evs (main now) in
  dispatch lower_full (dispatch lower_full s (theme_action_triggered theme1))
           (theme_action_triggered theme2)
  = dispatch lower_full s (theme_action_triggered theme2).
Proof.
  cbn zeta.
  destruct (run_events_reached lower_full evs (main now) (main_reached now))
    as (Hh & Hl & _).
  set (s := run_events lower_full evs (main now)) in *.
  destruct (nonempty_last _ Hl) as (pre & x & Hpre).
  destruct (apply_theme_run theme1) as [ss1 Hrun1].
  destruct (apply_theme_run theme2) as [ss2 Hrun2].
  destruct (Hrun1 s pre x Hh Hpre) as (ws1 & Hws1 & Hs1).
  destruct (Hrun2 s pre x Hh Hpre) as (ws2 & Hws2 & Hs2).
  assert (dispatch lower_full s (theme_action_triggered theme1)
          = set_deferred_delete []
              (set_messages_layout ((WidgetItem <$> ws1) ++ [x])
                 (set_styleSheet ss1 (set_current_theme theme1 s)))) as E1.
  { unfold dispatch. cbn [slot]. rewrite Hs1. by destruct s. }
  rewrite E1. set (s1 := set_deferred_delete [] _) in *.
  destruct (Hrun2 s1 (WidgetItem <$> ws1) x) as (ws2' & Hws2' & Hs12);
    [by destruct s | by destruct s |].
  assert (ws2' = ws2) as ->.
  { assert (messages s1 = messages s) as Hm by (by destruct s).
    rewrite Hm, Hws2 in Hws2'. by injection Hws2'. }
  unfold dispatch. cbn [slot]. rewrite Hs12, Hs2. unfold s1. by destruct s.
Qed.

(** ** Export *)

Lemma html_block_div c secondary accent text m :
  getitem c "secondary" = Returned secondary ->
  getitem c "accent" = Returned accent ->
  getitem c "text" = Returned text ->
  html_block c m = Returned (html_div secondary accent text m).
Proof.
  intros Hs Ha Ht. unfold html_block, html_div, lit.
  cbn [fstr foldr]. rewrite Hs, Ha, Ht.
  cbn [mbind result_bind mret result_ret]. by rewrite app_nil_r.
Qed.

Lemma html_loop_run file_path secondary accent text ms : forall s acc,
  getitem (colors (deref (themes s) (current_theme s))) "secondary" = Returned secondary ->
  getitem (colors (deref (themes s) (current_theme s))) "accent" = Returned accent ->
  getitem (colors (deref (themes s) (current_theme s))) "text" = Returned text ->
  files s !! file_path = Some acc ->
  run (for_each ms (fun message =>
         h ← get themes;
         theme ← get current_theme;
         data ← lift (html_block (colors (deref h theme)) message);
         f_write file_path data)) s
  = (Returned tt,
     set_files (<[file_path := acc ++ concat (html_div secondary accent text <$> ms)]>
                  (files s)) s).
Proof.
  induction ms as [|m ms IH]; intros s acc Hs Ha Ht Hacc; cbn [for_each].
  - run_simpl. cbn [fmap list_fmap concat]. rewrite app_nil_r.
    rewrite insert_id by done. by destruct s.
  - rewrite run_bind. run_simpl.
    rewrite (html_block_div _ secondary accent text) by done.
    unfold f_write at 1. run_simpl. rewrite Hacc. cbn [default].
    erewrite IH; [| | | |run_simpl; apply lookup_insert_eq];
      [|by destruct s..].
    run_simpl. rewrite set_files_twice, insert_insert_eq.
    cbn [fmap list_fmap concat]. by rewrite app_assoc.
Qed.

Lemma run_open_w file_path s :
  run (open_w file_path) s
  = (Returned tt, set_files (<[file_path := []]> (files s)) s).
Proof. reflexivity. Qed.

Lemma run_f_write file_path data s :
  run (f_write file_path data) s
  = (Returned tt,
     set_files (<[file_path := default [] (files s !! file_path) ++ data]> (files s)) s).
Proof. reflexivity. Qed.

Lemma run_get {A} (f : State -> A) s : run (get f) s = (Returned (f s), s).
Proof. reflexivity. Qed.

Lemma save_html_run file_path secondary accent text s :
  file_path <> [] -> endswith file_path (py ".txt") = false ->
  getitem (colors (deref (themes s) (current_theme s))) "secondary" = Returned secondary ->
  getitem (colors (deref (themes s) (current_theme s))) "accent" = Returned accent ->
  getitem (colors (deref (themes s) (current_theme s))) "text" = Returned text ->
  run (save_chat_history file_path) s
  = (Returned tt,
     set_files (<[file_path := html_document secondary accent text (messages s)]>
                  (files s)) s).
Proof.
  intros Hne Htxt Hs Ha Ht. unfold save_chat_history.
  rewrite bool_decide_eq_false_2 by done. rewrite Htxt.
  rewrite run_bind, run_open_w. lazy beta iota.
  rewrite run_bind, run_f_write. lazy beta iota.
  rewrite run_bind, run_get. lazy beta iota.
  rewrite run_bind.
  erewrite (html_loop_run _ secondary accent text);
    [| | | |cbn [files set_files]; apply lookup_insert_eq]; [|by destruct s..].
  rewrite run_f_write.
  cbn [files set_files messages]. rewrite !lookup_insert_eq. cbn [default app].
  rewrite !set_files_twice, !insert_insert_eq. unfold html_document.
  by rewrite <- app_assoc.
Qed.

Lemma export_html_aux (s : State) (file_path : pystr) :
  themes s = Themes_class ->
  file_path <> [] -> endswith file_path (py ".txt") = false ->
  exists secondary accent text,
    getitem (colors (deref (themes s) (current_theme s))) "secondary" = Returned secondary
    /\ getitem (colors (deref (themes s) (current_theme s))) "accent" = Returned accent
    /\ getitem (colors (deref (themes s) (current_theme s))) "text" = Returned text
    /\ run (save_chat_history file_path) s
       = (Returned tt,
          set_files (<[file_path := html_document secondary accent text (messages s)]>
                       (files s)) s).
Proof.
  intros Hh Hne Htxt. rewrite Hh.
  lookup_color (current_theme s) "secondary"%string cs Hs.
  lookup_color (current_theme s) "accent"%string ca Ha.
  lookup_color (current_theme s) "text"%string ct Ht.
  exists cs, ca, ct. repeat split; try done.
  apply save_html_run; try done; by rewrite Hh.
Qed.

(** X6.  Exporting to a non-empty path that does not end in [.txt]
    (whatever its case) writes an HTML document: the fixed opening, one
    block per message in the order of the log, coloured with the
    secondary, accent and text colours of the theme active at that moment,
    and the fixed closing.  It returns normally and changes nothing but
    that file. *)
Theorem export_html_spec (s : State) (file_path : pystr) :
  themes s = Themes_class ->
  file_path <> [] -> endswith file_path (py ".txt") = false ->
  exists secondary accent text,
    colors (deref Themes_class (current_theme s)) !! py "secondary" = Some secondary
    /\ colors (deref Themes_class (current_theme s)) !! py "accent" = Some accent
    /\ colors (deref Themes_class (current_theme s)) !! py "text" = Some text
    /\ run (save_chat_history file_path) s
       = (Returned tt,
          set_files (<[file_path := html_document secondary accent text (messages s)]>
                       (files s)) s).
Proof.
  intros Hh Hne Htxt.
  lookup_color (current_theme s) "secondary"%string cs Hs.
  lookup_color (current_theme s) "accent"%string ca Ha.
  lookup_color (current_theme s) "text"%string ct Ht.
  exists cs, ca, ct.
  assert (forall k v, getitem (colors (deref Themes_class (current_theme s))) k
                      = Returned v ->
                      colors (deref Themes_class (current_theme s)) !! py k = Some v)
    as Hget.
  { intros k v. unfold getitem. destruct (_ !! py k); [by intros [= ->]|done]. }
  repeat split; try by apply Hget.
  apply save_html_run; try done; by rewrite Hh.
Qed.

Lemma files_set_files f s : files (set_files f s) = f.
Proof. by destruct s. Qed.

Lemma messages_set_files f s : messages (set_files f s) = messages s.
Proof. by destruct s. Qed.

Lemma themes_set_files f s : themes (set_files f s) = themes s.
Proof. by destruct s. Qed.

Lemma current_theme_set_files f s :
  current_theme (set_files f s) = current_theme s.
Proof. by destruct s. Qed.

(** X7.  An export writes at most the file chosen: every other file, the
    log and the rest of the state are as before.  Exporting again to the
    same path changes nothing more, and a cancelled dialog (the empty
    path) changes nothing at all. *)
Theorem export_overwrites_one_file (s : State) (file_path : pystr) :
  themes s = Themes_class ->
  exists fs,
    run (save_chat_history file_path) s = (Returned tt, set_files fs s)
    /\ (forall q, q <> file_path -> fs !! q = files s !! q)
    /\ run (save_chat_history file_path) (set_files fs s)
       = (Returned tt, set_files fs s)
    /\ (file_path = [] -> fs = files s).
Proof.
  intros Hh. destruct (decide (file_path = [])) as [->|Hne].
  - exists (files s). assert (set_files (files s) s = s) as -> by (by destruct s).
    by repeat split.
  - destruct (endswith file_path (py ".txt")) eqn:Htxt.
    + eexists. split; [by apply save_text_run|].
      split; [by intros q Hq; rewrite lookup_insert_ne|]. split; [|done].
      rewrite save_text_run by done.
      by rewrite set_files_twice, files_set_files, messages_set_files,
        insert_insert_eq.
    + destruct (export_html_aux s file_path Hh Hne Htxt)
        as (cs & ca & ct & Hs & Ha & Ht & Hrun).
      eexists. split; [exact Hrun|].
      split; [by intros q Hq; rewrite lookup_insert_ne|]. split; [|done].
      rewrite (save_html_run _ cs ca ct)
        by (try done; by rewrite themes_set_files, current_theme_set_files).
      by rewrite set_files_twice, files_set_files, messages_set_files,
        insert_insert_eq.
Qed.

(** ** No slot raises *)

Lemma eventFilter_send obj event now s :
  is_send_shortcut obj event ->
  run (eventFilter obj event now) s = run (send_message now;; mret true) s.
Proof.
  intros (Ho & Ht & Hk & Hm). unfold eventFilter. rewrite Ho, Ht, Hk, Hm.
  rewrite bool_decide_eq_true_2 by done. reflexivity.
Qed.

Lemma eventFilter_pass obj event now s :
  ~ is_send_shortcut obj event ->
  run (eventFilter obj event now) s = (Returned false, s).
Proof.
  intros Hn. unfold eventFilter.
  destruct (bool_decide_reflect (obj = obj_message_input)); [|done].
  destruct (N.eqb_spec (event_type event) QEvent_KeyPress); [|done].
  destruct (N.eqb_spec (key event) Qt_Key_Return); [|done].
  destruct (N.eqb_spec (modifiers event) Qt_ControlModifier); [|done].
  by destruct Hn.
Qed.

Lemma send_message_returns now s :
  themes s = Themes_class -> (run (send_message now) s).1 = Returned tt.
Proof.
  intros Hh.
  destruct (decide (strip (toPlainText (message_input s)) = [])) as [He|Hne].
  - by rewrite send_message_blank.
  - by destruct (send_message_run now s Hh Hne) as [w ->].
Qed.

Lemma classic_shortcut obj event :
  is_send_shortcut obj event \/ ~ is_send_shortcut obj event.
Proof.
  unfold is_send_shortcut.
  destruct (decide (obj = obj_message_input)); [|right; tauto].
  destruct (decide (event_type event = QEvent_KeyPress)); [|right; tauto].
  destruct (decide (key event = Qt_Key_Return)); [|right; tauto].
  destruct (decide (modifiers event = Qt_ControlModifier)); [|right; tauto].
  by left.
Qed.

Lemma export_overwrites_one_file_aux (s : State) (file_path : pystr) :
  themes s = Themes_class ->
  exists fs, run (save_chat_history file_path) s = (Returned tt, set_files fs s).
Proof.
  intros Hh. destruct (decide (file_path = [])) as [->|Hne].
  - exists (files s). by destruct s.
  - destruct (endswith file_path (py ".txt")) eqn:Htxt.
    + eexists. by apply save_text_run.
    + destruct (export_html_aux s file_path Hh Hne Htxt) as (? & ? & ? & _ & _ & _ & ->).
      eauto.
Qed.

(** X8.  In every state the program reaches, every slot returns normally:
    no event makes a handler raise, whatever the clock, the random
    generator, the dialogs and the keyboard supply. *)
Theorem no_slot_raises (lower_full : pystr -> pystr -> N -> pystr)
    (now : datetime) (evs : list Event) (ev : Event) :
  (run (slot lower_full ev) (run_events lower_full evs (main now))).1 = Returned tt.
Proof.
  destruct (run_events_reached lower_full evs (main now) (main_reached now))
    as (Hh & Hl & _).
  set (s := run_events lower_full evs (main now)) in *.
  destruct ev as [t| |file_path t|i|theme|file_path|t r|obj event t|text pos|];
    cbn [slot].
  - by apply send_message_returns.
  - reflexivity.
  - unfold select_file. destruct (bool_decide _); [|done].
    match goal with |- context [add_message ?m] =>
      by destruct (add_message_run m s Hh) as (w & _ & ->) end.
  - by destruct (emojis !! i).
  - destruct (nonempty_last _ Hl) as (pre & x & Hpre).
    destruct (apply_theme_run theme) as [ss Hrun].
    by destruct (Hrun s pre x Hh Hpre) as (ws & _ & ->).
  - by destruct (export_overwrites_one_file_aux s file_path Hh) as [fs ->].
  - destruct (single_shots s) as [|n] eqn:Hn.
    + by rewrite single_shot_fires_idle.
    + by destruct (single_shot_fires_run t r s n Hh Hn) as (resp & w & _ & ->).
  - rewrite run_bind.
    destruct (classic_shortcut obj event) as [Hy|Hn].
    + rewrite eventFilter_send by done. rewrite run_bind.
      pose proof (send_message_returns t s Hh) as H.
      by destruct (run (send_message t) s) as [[[]|] ?].
    + by rewrite eventFilter_pass.
  - reflexivity.
  - unfold closeEvent. run_simpl. by destruct (tray_icon_visible s).
Qed.

(** ** The key filter and the close event *)

(** X9.  The filter sends exactly on a key press of Return with the
    Control modifier alone in the composer.  Any other event (another
    object, a key release, the keypad Enter, a further modifier) is passed
    on with the state untouched. *)
Theorem eventFilter_exact (obj : QObject) (event : QEvent) (now : datetime) (s : State) :
  themes s = Themes_class ->
  ((run (eventFilter obj event now) s).1 = Returned true
   <-> is_send_shortcut obj event)
  /\ (~ is_send_shortcut obj event ->
      run (eventFilter obj event now) s = (Returned false, s)).
Proof.
  intros Hh. split; [|apply eventFilter_pass]. split.
  - intros Hr. destruct (classic_shortcut obj event) as [Hy|Hn]; [done|].
    rewrite eventFilter_pass in Hr by done. discriminate Hr.
  - intros Hy. rewrite eventFilter_send by done. rewrite run_bind.
    pose proof (send_message_returns now s Hh) as H.
    by destruct (run (send_message now) s) as [[[]|] ?].
Qed.

Lemma slot_tray_visible lower_full ev :
  stable (fun s => tray_icon_visible s = true) (slot lower_full ev).
Proof. destruct ev; unfold_methods; stable_auto. Qed.

Lemma tray_visible_reached lower_full now evs :
  tray_icon_visible (run_events lower_full evs (main now)) = true.
Proof.
  apply (run_events_invariant lower_full (fun s => tray_icon_visible s = true)).
  - vm_compute. reflexivity.
  - intros s ev _ Hs. unfold dispatch.
    pose proof (slot_tray_visible lower_full ev s Hs) as H.
    by destruct (run _ s) as [r []].
Qed.

(** X10.  In every state the program reaches, a close request is
    refused: [closeEvent] hides the window and ignores the event, and the
    log, the composer and the pending replies stay, so a reply that was
    pending still arrives afterwards. *)
Theorem close_only_hides (lower_full : pystr -> pystr -> N -> pystr)
    (now : datetime) (evs : list Event) :
  let s := run_events lower_full evs (main now) in
  let s' := dispatch lower_full s close_requested in
  run closeEvent s = (Returned false, set_window_visible false s)
  /\ s' = set_window_visible false s
  /\ messages s' = messages s
  /\ single_shots s' = single_shots s.
Proof.
  cbn zeta.
  pose proof (tray_visible_reached lower_full now evs) as Hv.
  assert (deferred_delete (run_events lower_full evs (main now)) = []) as Hd.
  { apply (run_events_invariant lower_full (fun s => deferred_delete s = [])).
    - vm_compute. reflexivity.
    - intros s ev _ _. unfold dispatch. by destruct (run _ s) as [r []]. }
  set (s := run_events lower_full evs (main now)) in *.
  assert (run closeEvent s = (Returned false, set_window_visible false s)) as Hc.
  { unfold closeEvent. run_simpl. by rewrite Hv. }
  split; [done|].
  assert (dispatch lower_full s close_requested = set_window_visible false s) as ->.
  { unfold dispatch. cbn [slot]. rewrite run_bind, Hc. run_simpl.
    destruct s; cbn in Hd |- *. by rewrite Hd. }
  by destruct s.
Qed.

(** ** What the renderer and the style sheet read of a theme *)

Lemma getitem_Some c k v : c !! py k = Some v -> getitem c k = Returned v.
Proof. unfold getitem. by intros ->. Qed.

Lemma getitem_None c k : c !! py k = None -> getitem c k = Raised (KeyError (py k)).
Proof. unfold getitem. by intros ->. Qed.

(** X11.  Building the widget of a message reads three colours of the
    theme and no other: it returns exactly when the theme has [accent],
    [text] and [secondary], whatever the kind of the message, and
    otherwise raises [KeyError] for the first of these, in this order,
    that is missing. *)
Theorem widget_needs_three_colors (h : Themes) (m : Message) (r : ThemeRef) :
  let c := colors (deref h r) in
  ((exists w, ChatMessageWidget_new h m r = Returned w)
   <-> has_key c "accent" /\ has_key c "text" /\ has_key c "secondary")
  /\ (~ has_key c "accent" ->
      ChatMessageWidget_new h m r = Raised (KeyError (py "accent")))
  /\ (has_key c "accent" -> ~ has_key c "text" ->
      ChatMessageWidget_new h m r = Raised (KeyError (py "text")))
  /\ (has_key c "accent" -> has_key c "text" -> ~ has_key c "secondary" ->
      ChatMessageWidget_new h m r = Raised (KeyError (py "secondary"))).
Proof.
  cbn zeta. unfold has_key, ChatMessageWidget_new.
  set (c := colors (deref h r)). unfold lit. cbn [fstr foldr].
  assert (forall A (o : option A), o = None -> ~ is_Some o) as Hnone
    by (intros A o -> [? ?]; discriminate).
  assert (forall A (o : option A) v, o = Some v -> is_Some o) as Hsome
    by (intros A o v ->; eauto).
  destruct (c !! py "accent") as [ca|] eqn:Ea.
  2:{ rewrite (getitem_None c "accent" Ea). cbn [mbind result_bind].
      pose proof (Hnone _ _ Ea) as Hn. rewrite Ea in *.
      split; [split; [by intros [? ?] | by intros [? _]]|].
      split; [done|]. split; [by intros ?|by intros ?]. }
  rewrite (getitem_Some c "accent" ca Ea).
  cbn [mbind result_bind mret result_ret].
  destruct (c !! py "text") as [ct|] eqn:Et.
  2:{ rewrite (getitem_None c "text" Et). cbn [mbind result_bind].
      pose proof (Hnone _ _ Et) as Hn. pose proof (Hsome _ _ _ Ea) as Hy.
      rewrite Ea, Et in *.
      split; [split; [by intros [? ?] | by intros (_ & ? & _)]|].
      split; [by intros ?|]. split; [done|by intros _ ?]. }
  rewrite (getitem_Some c "text" ct Et).
  cbn [mbind result_bind mret result_ret].
  pose proof (Hsome _ _ _ Ea) as Hya. pose proof (Hsome _ _ _ Et) as Hyt.
  destruct (c !! py "secondary") as [cs|] eqn:Es.
  - rewrite (getitem_Some c "secondary" cs Es).
    pose proof (Hsome _ _ _ Es) as Hys. rewrite Ea, Et, Es in *.
    split; [split; [done|intros _]|].
    + destruct (decide (type m = TEXT)); [eexists; reflexivity|].
      destruct (decide (type m = IMAGE)); eexists; reflexivity.
    + split; [by intros ?|]. split; [by intros _ ?|by intros _ _ ?].
  - rewrite (getitem_None c "secondary" Es).
    pose proof (Hnone _ _ Es) as Hn. rewrite Ea, Et, Es in *.
    split.
    + split; [|by intros (_ & _ & ?)]. intros [w Hw]. exfalso.
      destruct (decide (type m = TEXT));
        [|destruct (decide (type m = IMAGE))]; discriminate Hw.
    + split; [by intros ?|]. split; [by intros _ ?|]. intros _ _ _.
      destruct (decide (type m = TEXT));
        [|destruct (decide (type m = IMAGE))]; reflexivity.
Qed.

Lemma window_styleSheet_keys c :
  (exists ss, window_styleSheet c = Returned ss)
  <-> Forall (has_key c)
        ["background"; "text"; "input"; "accent"; "hover"; "pressed"; "secondary"]%string.
Proof.
  unfold window_styleSheet, has_key, lit. cbn [fstr foldr].
  assert (forall k, c !! py k = None ->
            getitem c k = Raised (KeyError (py k)) /\ ~ is_Some (@None pystr)) as Hn.
  { intros k E. split; [by apply getitem_None|]. by intros [? ?]. }
  assert (forall k v, c !! py k = Some v ->
            getitem c k = Returned v /\ is_Some (Some v)) as Hs.
  { intros k v E. split; [by apply getitem_Some|]. eauto. }
  rewrite !Forall_cons, Forall_nil. cbv beta.
  destruct (c !! py "background") as [?|] eqn:E1;
    [destruct (Hs _ _ E1) as [-> ?]
    | destruct (Hn _ E1) as [-> ?]; cbn [mbind result_bind];
      split; [by intros [? ?]|tauto]].
  cbn [mbind result_bind mret result_ret].
  destruct (c !! py "text") as [?|] eqn:E2;
    [destruct (Hs _ _ E2) as [-> ?]
    | destruct (Hn _ E2) as [-> ?]; cbn [mbind result_bind];
      split; [by intros [? ?]|tauto]].
  cbn [mbind result_bind mret result_ret].
  destruct (c !! py "input") as [?|] eqn:E3;
    [destruct (Hs _ _ E3) as [-> ?]
    | destruct (Hn _ E3) as [-> ?]; cbn [mbind result_bind];
      split; [by intros [? ?]|tauto]].
  cbn [mbind result_bind mret result_ret].
  destruct (c !! py "accent") as [?|] eqn:E4;
    [destruct (Hs _ _ E4) as [-> ?]
    | destruct (Hn _ E4) as [-> ?]; cbn [mbind result_bind];
      split; [by intros [? ?]|tauto]].
  cbn [mbind result_bind mret result_ret].
  destruct (c !! py "hover") as [?|] eqn:E5;
    [destruct (Hs _ _ E5) as [-> ?]
    | destruct (Hn _ E5) as [-> ?]; cbn [mbind result_bind];
      split; [by intros [? ?]|tauto]].
  cbn [mbind result_bind mret result_ret].
  destruct (c !! py "pressed") as [?|] eqn:E6;
    [destruct (Hs _ _ E6) as [-> ?]
    | destruct (Hn _ E6) as [-> ?]; cbn [mbind result_bind];
      split; [by intros [? ?]|tauto]].
  cbn [mbind result_bind mret result_ret].
  destruct (c !! py "secondary") as [?|] eqn:E7;
    [destruct (Hs _ _ E7) as [-> ?]
    | destruct (Hn _ E7) as [-> ?]; cbn [mbind result_bind];
      split; [by intros [? ?]|tauto]].
  cbn [mbind result_bind mret result_ret].
  split; [tauto|]. intros _. eexists. reflexivity.
Qed.

(** X12.  Choosing a theme whose dictionary lacks one of the seven
    colour roles raises before anything is drawn: [current_theme] is
    already set to it, while the style sheet, the layout and the log are
    as they were.  With all seven roles present the style sheet is built. *)
Theorem apply_theme_needs_seven_colors (s : State) (theme : ThemeRef) :
  let c := colors (deref (themes s) theme) in
  let keys := ["background"; "text"; "input"; "accent"; "hover"; "pressed";
               "secondary"]%string in
  ((exists ss, window_styleSheet c = Returned ss) <-> Forall (has_key c) keys)
  /\ (~ Forall (has_key c) keys ->
      exists e, run (apply_theme theme) s = (Raised e, set_current_theme theme s)).
Proof.
  cbn zeta. split; [apply window_styleSheet_keys|]. intros Hk.
  assert (run (apply_theme theme) s
          = run (h ← get themes;
                 ss ← lift (window_styleSheet (colors (deref h theme)));
                 modify (set_styleSheet ss);; refresh_messages)
                (set_current_theme theme s)) as -> by reflexivity.
  rewrite run_bind, run_get. lazy beta iota.
  assert (themes (set_current_theme theme s) = themes s) as -> by (by destruct s).
  rewrite run_bind.
  destruct (window_styleSheet (colors (deref (themes s) theme))) as [ss|e] eqn:E.
  - destruct Hk. apply window_styleSheet_keys. eauto.
  - exists e. reflexivity.
Qed.

(** ** File names, the emoji panel, the contact list *)

Lemma basename_aux_spec p : forall acc,
  46 <> 47 ->
  (47 ∉ p -> basename_aux p acc = acc)
  /\ (47 ∈ p -> exists k, p = k ++ 47 :: basename_aux p acc
                          /\ 47 ∉ basename_aux p acc).
Proof.
  induction p as [|c p IH]; intros acc _; cbn [basename_aux].
  - split; [done|]. by intros ?%elem_of_nil.
  - destruct (N.eqb_spec c 47) as [->|Hc].
    + destruct (IH p) as [Hno Hyes]; [done|].
      destruct (decide (47 ∈ p)) as [Hin|Hnin].
      * split; [intros H; destruct H; by left|]. intros _.
        destruct (Hyes Hin) as (k & Hk & Hfree).
        exists (47 :: k). split; [|done]. cbn. by f_equal.
      * rewrite (Hno Hnin).
        split; [intros H; destruct H; by left|]. intros _.
        exists []. by split.
    + destruct (IH acc) as [Hno Hyes]; [done|]. split.
      * intros Hnin. apply Hno. intros Hin. apply Hnin. by right.
      * intros [?|Hin]%elem_of_cons; [done|].
        destruct (Hyes Hin) as (k & Hk & Hfree).
        exists (c :: k). split; [|done]. cbn. by f_equal.
Qed.

(** X13.  The name shown for an attached file is the part of the path
    after its last slash: it holds no slash, the path is what stands
    before it (empty or ending in a slash) followed by it, and a path
    without slash is shown whole. *)
Theorem basename_is_last_component (p : pystr) :
  (47 ∉ basename p)
  /\ (exists dir, p = dir ++ basename p /\ (dir = [] \/ last dir = Some 47))
  /\ (47 ∉ p -> basename p = p).
Proof.
  unfold basename. destruct (basename_aux_spec p p) as [Hno Hyes]; [done|].
  destruct (decide (47 ∈ p)) as [Hin|Hnin].
  - destruct (Hyes Hin) as (k & Hk & Hfree). split; [done|]. split; [|done].
    exists (k ++ [47]). split; [by rewrite <- app_assoc|].
    right. by rewrite last_snoc.
  - rewrite (Hno Hnin). split; [done|]. split; [|done]. exists [].
    split; [done | by left].
Qed.

Lemma concat_chunks {A} (l : list A) n k : forall a,
  concat ((fun i => take n (drop i l)) <$> ((fun j => j * n)%nat <$> seq a k))
  = take (k * n) (drop (a * n) l).
Proof.
  induction k as [|k IH]; intros a; cbn [seq fmap list_fmap concat]; [done|].
  change (list_fmap ?A1 ?B1 ?f ?x) with (f <$> x). rewrite IH.
  replace (S a * n)%nat with (a * n + n)%nat by lia.
  rewrite <- drop_drop. replace (S k * n)%nat with (n + k * n)%nat by lia.
  by rewrite take_take_drop.
Qed.

(** X14.  Whatever list of emojis the panel is given, its grid shows each
    of them once, in order, in rows of five (the last row may be shorter,
    none is empty), and every button emits the emoji it shows. *)
Theorem emoji_grid_covers (l : list pystr) :
  button_text <$> concat (emoji_grid l) = l
  /\ Forall (fun row => (1 <= length row <= 5)%nat) (emoji_grid l)
  /\ Forall (fun b => clicked_emits b = button_text b) (concat (emoji_grid l))
  /\ length (emoji_grid l) = ((length l + 4) / 5)%nat.
Proof.
  unfold emoji_grid, range_from_zero.
  set (mk := fun emoji : pystr => mk_QPushButton emoji (40, 40) emoji).
  replace (length l + 5 - 1)%nat with (length l + 4)%nat by lia.
  set (k := ((length l + 4) / 5)%nat).
  assert (length l <= k * 5)%nat as Hk.
  { unfold k. pose proof (Nat.div_mod_eq (length l + 4) 5) as H.
    pose proof (Nat.mod_upper_bound (length l + 4) 5). lia. }
  assert ((k - 1) * 5 < length l \/ k = 0)%nat as Hk'.
  { unfold k. pose proof (Nat.div_mod_eq (length l + 4) 5) as H.
    pose proof (Nat.mod_upper_bound (length l + 4) 5). lia. }
  assert (concat ((fun i => mk <$> take 5 (drop i l))
                    <$> ((fun j => j * 5)%nat <$> seq 0 k)) = mk <$> l) as Hcat.
  { transitivity (mk <$> concat ((fun i => take 5 (drop i l))
                                   <$> ((fun j => j * 5)%nat <$> seq 0 k))).
    - generalize ((fun j => j * 5)%nat <$> seq 0 k). intros idx.
      induction idx as [|i idx IH]; [done|]. cbn. rewrite fmap_app. by f_equal.
    - rewrite concat_chunks. change (0 * 5)%nat with 0%nat.
      rewrite drop_0. by rewrite take_ge by lia. }
  split; [|split; [|split]].
  - rewrite Hcat, <- list_fmap_compose. apply list_fmap_id.
  - rewrite Forall_fmap, Forall_fmap. apply Forall_forall. intros j Hj.
    apply elem_of_seq in Hj. cbn. rewrite length_fmap, length_take, length_drop.
    destruct Hk' as [Hk'|Hk']; lia.
  - rewrite Hcat. apply Forall_fmap. by apply Forall_true.
  - by rewrite !length_fmap, length_seq.
Qed.



Lemma contains_spec needle : forall hay,
  contains needle hay = true <-> exists a b, hay = a ++ needle ++ b.
Proof.
  induction hay as [|c hay IH]; cbn [contains].
  - destruct (bool_decide_reflect (take (length needle) [] = needle)) as [E|E].
    + split; [|done]. intros _. exists [], []. rewrite take_nil in E. by subst.
    + split; [done|]. intros (a & b & H). destruct E.
      symmetry in H. apply app_eq_nil in H as [-> [-> ->]%app_eq_nil]. done.
  - destruct (bool_decide_reflect (take (length needle) (c :: hay) = needle)) as [E|E].
    + split; [|done]. intros _. exists [], (drop (length needle) (c :: hay)).
      cbn [app]. rewrite <- E at 1. by rewrite take_drop.
    + rewrite IH. split.
      * intros (a & b & ->). by exists (c :: a), b.
      * intros (a & b & H). destruct a as [|c' a].
        -- destruct E. cbn [app] in H. rewrite H. by rewrite take_app_length.
        -- injection H as -> ->. eauto.
Qed.

Section ContactList.

Variable lower_full : pystr -> pystr -> N -> pystr.
Variable findChild : list QLabel -> QLabel.

(** X16.  A contact is shown exactly when the lower-cased search text
    occurs in the lower-cased text of the label [findChild] returns for
    it; in particular the empty search shows every contact.  Filtering
    changes no label, so the names, their order and their number stay. *)
Theorem filter_contacts_shows_matches (text : pystr) (items : list ContactItem) :
  let shown := filter_contacts lower_full findChild text items in
  item_labels <$> shown = item_labels <$> items
  /\ Forall2 (fun item item' =>
       item_hidden item' = false <->
       exists a b,
         lower lower_full (label_text (findChild (item_labels item)))
         = a ++ lower lower_full text ++ b) items shown
  /\ (text = [] -> Forall (fun item' => item_hidden item' = false) shown).
Proof.
  cbn zeta. unfold filter_contacts. split; [|split].
  - rewrite <- list_fmap_compose. by apply list_fmap_ext.
  - apply Forall2_fmap_r, Forall_Forall2_diag, Forall_forall. intros item _.
    unfold compose. cbv beta zeta. cbn [item_hidden]. rewrite negb_false_iff. apply contains_spec.
  - intros ->. apply Forall_fmap, Forall_forall. intros item _.
    unfold compose. cbv beta zeta. cbn [item_hidden]. rewrite negb_false_iff. apply contains_spec.
    eexists [], _. reflexivity.
Qed.

(** X17.  What the contact list shows depends on the latest search text
    only, not on what was searched before; and two ASCII search texts that
    differ in case only show the same contacts. *)
Theorem filter_contacts_latest_text (text1 text2 : pystr) (items : list ContactItem) :
  filter_contacts lower_full findChild text2
    (filter_contacts lower_full findChild text1 items)
  = filter_contacts lower_full findChild text2 items
  /\ (Forall (fun c => c < 128) text1 -> Forall (fun c => c < 128) text2 ->
      same_ignoring_case text1 text2 ->
      filter_contacts lower_full findChild text1 items
      = filter_contacts lower_full findChild text2 items).
Proof.
  unfold filter_contacts. split.
  - rewrite <- list_fmap_compose. by apply list_fmap_ext.
  - intros H1 H2 Hsame. apply list_fmap_ext. intros i item _.
    unfold lower. rewrite (lower_from_ascii lower_full text1) by done.
    rewrite (lower_from_ascii lower_full text2) by done.
    unfold same_ignoring_case in Hsame. by rewrite Hsame.
Qed.

End ContactList.

(** ** Time stamps *)




(** * The further statements at concrete inputs *)

Lemma timeline_mirrors_log_before_switch_witness :
  let evs := [composer_edited (py "hola") 4; send_button_clicked sample_now;
              single_shot_timeout sample_now 2;
              file_btn_clicked (py "/tmp/a.gif") sample_now] in
  let s := run_events lower_full_sample evs (main sample_start) in
  forallb (fun ev => negb (is_theme_switch ev)) evs = true
  /\ timeline s = messages s /\ length (messages s) = 4%nat.
Proof.
  cbn zeta.
  assert (forallb (fun ev => negb (is_theme_switch ev))
            [composer_edited (py "hola") 4; send_button_clicked sample_now;
             single_shot_timeout sample_now 2;
             file_btn_clicked (py "/tmp/a.gif") sample_now] = true) as H
    by reflexivity.
  destruct (timeline_mirrors_log_before_switch lower_full_sample sample_start _ H)
    as [Ht _].
  split; [exact H|]. split; [exact Ht|]. vm_compute. reflexivity.
Defined.

Lemma export_html_spec_witness :
  let s := main sample_start in
  themes s = Themes_class /\ py "chat.TXT" <> []
  /\ endswith (py "chat.TXT") (py ".txt") = false
  /\ exists fs,
       (run (save_chat_history (py "chat.TXT")) s).2 = set_files fs s
       /\ fs !! py "chat.TXT"
          = Some (html_document (py "#2F3136") (py "#7289DA") (py "#FFFFFF")
                    (messages s)).
Proof.
  cbn zeta.
  assert (themes (main sample_start) = Themes_class) as Hh by (vm_compute; reflexivity).
  assert (py "chat.TXT" <> []) as Hne by (vm_compute; discriminate).
  assert (endswith (py "chat.TXT") (py ".txt") = false) as Htxt
    by (vm_compute; reflexivity).
  destruct (export_html_spec (main sample_start) (py "chat.TXT") Hh Hne Htxt)
    as (cs & ca & ct & Hs & Ha & Ht & Hrun).
  split; [exact Hh|]. split; [exact Hne|]. split; [exact Htxt|].
  eexists. rewrite Hrun. split; [reflexivity|].
  rewrite lookup_insert_eq.
  assert (cs = py "#2F3136") as -> by (vm_compute in Hs; injection Hs as <-; reflexivity).
  assert (ca = py "#7289DA") as -> by (vm_compute in Ha; injection Ha as <-; reflexivity).
  assert (ct = py "#FFFFFF") as -> by (vm_compute in Ht; injection Ht as <-; reflexivity).
  reflexivity.
Defined.

Lemma export_overwrites_one_file_witness :
  let s := main sample_start in
  themes s = Themes_class
  /\ exists fs,
       run (save_chat_history (py "chat.txt")) s = (Returned tt, set_files fs s)
       /\ run (save_chat_history (py "chat.txt")) (set_files fs s)
          = (Returned tt, set_files fs s).
Proof.
  cbn zeta.
  assert (themes (main sample_start) = Themes_class) as Hh by (vm_compute; reflexivity).
  destruct (export_overwrites_one_file (main sample_start) (py "chat.txt") Hh)
    as (fs & H1 & _ & H3 & _).
  split; [exact Hh|]. exists fs. split; assumption.
Defined.

Lemma eventFilter_exact_witness :
  let s := sample_typed (py "hola") in
  let keypad := mk_QEvent QEvent_KeyPress Qt_Key_Enter Qt_ControlModifier in
  themes s = Themes_class
  /\ ~ is_send_shortcut obj_message_input keypad
  /\ run (eventFilter obj_message_input keypad sample_now) s = (Returned false, s).
Proof.
  cbn zeta.
  assert (themes (sample_typed (py "hola")) = Themes_class) as Hh
    by (vm_compute; reflexivity).
  assert (~ is_send_shortcut obj_message_input
            (mk_QEvent QEvent_KeyPress Qt_Key_Enter Qt_ControlModifier)) as Hn
    by (intros (_ & _ & Hk & _); discriminate Hk).
  destruct (eventFilter_exact obj_message_input
              (mk_QEvent QEvent_KeyPress Qt_Key_Enter Qt_ControlModifier)
              sample_now (sample_typed (py "hola")) Hh) as [_ H].
  split; [exact Hh|]. split; [exact Hn|]. exact (H Hn).
Defined.

Lemma widget_needs_three_colors_witness :
  let c := colors (deref (Themes_without "text") DARK) in
  has_key c "accent" /\ ~ has_key c "text"
  /\ ChatMessageWidget_new (Themes_without "text") (welcome_message sample_start) DARK
     = Raised (KeyError (py "text")).
Proof.
  cbn zeta.
  assert (has_key (colors (deref (Themes_without "text") DARK)) "accent") as Ha
    by (vm_compute; eauto).
  assert (~ has_key (colors (deref (Themes_without "text") DARK)) "text") as Ht
    by (vm_compute; intros [? ?]; discriminate).
  destruct (widget_needs_three_colors (Themes_without "text")
              (welcome_message sample_start) DARK) as (_ & _ & H & _).
  split; [exact Ha|]. split; [exact Ht|]. exact (H Ha Ht).
Defined.

Lemma apply_theme_needs_seven_colors_witness :
  let s := set_themes_sample in
  ~ has_key (colors (deref (themes s) DARK)) "hover"
  /\ exists e, run (apply_theme DARK) s = (Raised e, set_current_theme DARK s).
Proof.
  cbn zeta.
  assert (~ has_key (colors (deref (themes set_themes_sample) DARK)) "hover") as Hn.
  { unfold has_key.
    assert (colors (deref (themes set_themes_sample) DARK) !! py "hover" = None)
      as -> by (vm_compute; reflexivity).
    intros [? ?]. discriminate. }
  split; [exact Hn|].
  destruct (apply_theme_needs_seven_colors set_themes_sample DARK) as [_ H].
  apply H. intros Hf. apply Hn.
  do 4 apply Forall_cons in Hf as [_ Hf]. by apply Forall_cons in Hf as [? _].
Defined.

Lemma basename_is_last_component_witness :
  (47 ∉ py "notes.txt") /\ basename (py "notes.txt") = py "notes.txt".
Proof.
  assert (47 ∉ py "notes.txt") as Hn.
  { vm_compute. intros H.
    repeat (apply elem_of_cons in H as [H|H]; [discriminate H|]).
    by apply elem_of_nil in H. }
  destruct (basename_is_last_component (py "notes.txt")) as (_ & _ & H).
  split; [exact Hn|]. exact (H Hn).
Defined.


Lemma filter_contacts_shows_matches_witness :
  Forall (fun item => item_hidden item = false)
    (filter_contacts lower_full_sample findChild_first [] setup_contacts).
Proof.
  destruct (filter_contacts_shows_matches lower_full_sample findChild_first []
              setup_contacts) as (_ & _ & H).
  exact (H eq_refl).
Defined.

Lemma filter_contacts_latest_text_witness :
  Forall (fun c => c < 128) (py "GRUPO") /\ Forall (fun c => c < 128) (py "grupo")
  /\ same_ignoring_case (py "GRUPO") (py "grupo")
  /\ filter_contacts lower_full_sample findChild_first (py "GRUPO") setup_contacts
     = filter_contacts lower_full_sample findChild_first (py "grupo") setup_contacts.
Proof.
  assert (Forall (fun c => c < 128) (py "GRUPO")) as H1
    by (vm_compute; repeat constructor).
  assert (Forall (fun c => c < 128) (py "grupo")) as H2
    by (vm_compute; repeat constructor).
  assert (same_ignoring_case (py "GRUPO") (py "grupo")) as H3 by reflexivity.
  destruct (filter_contacts_latest_text lower_full_sample findChild_first
              (py "GRUPO") (py "grupo") setup_contacts) as [_ H].
  split; [exact H1|]. split; [exact H2|]. split; [exact H3|]. exact (H H1 H2 H3).
Defined.

